(** * Monte-Carlo inference over a Boolean Bayesian network

    A shallow embedding of [Project 4/bayes_fever.py]: the node class
    [BooleanVariableNode] and the three samplers [SimpleSampler],
    [RejectionSampler] and [LikelihoodWeightingSampler].

    Conventions of the embedding.
    - A Python [dict] is a [gmap]; variable names are strings, CPT keys are
      tuples of Booleans ([list bool]).
    - Python floats are idealised as exact rationals ([Q]): rounding and
      underflow of IEEE arithmetic are outside the model.  Equalities between
      computed numbers are stated up to [Qeq] where the code and the
      specification compute them along different routes.
    - [random.random()] reads a process-wide generator.  The sequence of values
      it returns is a parameter [random : nat -> Q]; the number of calls made
      so far is threaded through the samplers as a position.
    - A raised exception is the result [Raise e].  The [while] loop of the
      samplers is bounded by a number of passes ([fuel]); a loop that needs
      more passes yields [OutOfFuel], which is not a Python outcome. *)

From Stdlib Require Import QArith Lia.
From stdpp Require Import gmap strings list fin_sets relations.
Close Scope Q_scope.

(** ** Exceptions *)

Inductive exn : Type :=
| KeyError
| ZeroDivisionError.

Inductive result (A : Type) : Type :=
| Ok (a : A)
| Raise (e : exn)
| OutOfFuel.

Arguments Ok {A} a.
Arguments Raise {A} e.
Arguments OutOfFuel {A}.

Definition bind {A B : Type} (m : result A) (k : A → result B) : result B :=
  match m with
  | Ok a => k a
  | Raise e => Raise e
  | OutOfFuel => OutOfFuel
  end.

Notation "'let*' x ':=' m 'in' k" := (bind m (λ x, k))
  (at level 10, x pattern, m at level 100, k at level 200).

(** ** Python primitives used by the source *)

(** [d[k]]: subscription raises [KeyError] on an absent key. *)
Definition getitem {K V : Type} `{Countable K} (d : gmap K V) (k : K) : result V :=
  match d !! k with
  | Some v => Ok v
  | None => Raise KeyError
  end.

(** [k in d] *)
Definition contains {K V : Type} `{Countable K} (d : gmap K V) (k : K) : bool :=
  match d !! k with
  | Some _ => true
  | None => false
  end.

(** [d.get(k, None) == v], which is also [k in d and d[k] == v]. *)
Definition get_eq (d : gmap string bool) (k : string) (v : bool) : bool :=
  match d !! k with
  | Some x => eqb x v
  | None => false
  end.

(** [all(...)] *)
Definition all (l : list bool) : bool := forallb id l.

(** [d.items()] *)
Definition items {V : Type} (d : gmap string V) : list (string * V) := map_to_list d.

(** [[ f(x) for x in l ]] where [f] may raise. *)
Fixpoint list_comp {A B : Type} (f : A → result B) (l : list A) : result (list B) :=
  match l with
  | [] => Ok []
  | x :: l' =>
      let* y := f x in
      let* ys := list_comp f l' in
      Ok (y :: ys)
  end.

(** [x < y] on numbers *)
Definition Qlt_bool (x y : Q) : bool := negb (Qle_bool y x).

(** [x / y]: true division raises [ZeroDivisionError] when [y == 0]. *)
Definition truediv (x y : Q) : result Q :=
  if Qeq_bool y 0 then Raise ZeroDivisionError else Ok (x / y)%Q.

(** ** class BooleanVariableNode *)

Record BooleanVariableNode : Type := mkNode {
  parents : list string;
  target : string;
  cpt : gmap (list bool) Q   (* (parent_val1, parent_val2, ...) => prob *)
}.

(** [BooleanVariableNode(var, parent_vars, cpt_entries)] *)
Definition new_node (var : string) (parent_vars : list string)
    (cpt_entries : gmap (list bool) Q) : BooleanVariableNode :=
  {| parents := parent_vars; target := var; cpt := cpt_entries |}.

Definition get_parents (self : BooleanVariableNode) : list string := parents self.

Definition get_var (self : BooleanVariableNode) : string := target self.

Definition get_prob_true (self : BooleanVariableNode) (parent_vals : list bool) : result Q :=
  let key := parent_vals in
  getitem (cpt self) key.

Definition get_prob_false (self : BooleanVariableNode) (parent_vals : list bool) : result Q :=
  let* p := get_prob_true self parent_vals in
  Ok (1 - p)%Q.

(** [node not in sample_vals] tests the node object itself, not its variable
    name.  The keys of [sample_vals] are variable names (strings) and
    [BooleanVariableNode] defines neither [__eq__] nor [__hash__], so a node
    compares equal to no key: the membership test is false for every node and
    every dictionary. *)
Definition node_in (node : BooleanVariableNode) (sample_vals : gmap string bool) : bool :=
  false.

(** [query_vals] and [evidence_vals] are tested against a sample by the same
    generator expression, [all(d.get(k) == v for k, v in m.items())]. *)
Definition all_items_eq (m d : gmap string bool) : bool :=
  all (map (λ '(k, v), get_eq d k v) (items m)).

(** ** class SimpleSampler *)

Module SimpleSampler.
Section Sampler.
Variable nodes : list BooleanVariableNode.
Variable random : nat → Q.

(** Body of the [for node in self.nodes] loop.  The state is the dictionary
    [sample_vals] and the number of calls made to [random.random()]. *)
Definition for_body (node : BooleanVariableNode) (st : gmap string bool * nat)
    : result (gmap string bool * nat) :=
  let '(sample_vals, pos) := st in
  let var := get_var node in
  if negb (node_in node sample_vals) then
    let parent_vars := get_parents node in
    if all (map (contains sample_vals) parent_vars) then
      let* parent_vals := list_comp (getitem sample_vals) parent_vars in
      let* prob_true := get_prob_true node parent_vals in
      Ok (<[var := Qlt_bool (random pos) prob_true]> sample_vals, S pos)
    else Ok st
  else Ok st.

Fixpoint for_nodes (l : list BooleanVariableNode) (st : gmap string bool * nat)
    : result (gmap string bool * nat) :=
  match l with
  | [] => Ok st
  | node :: l' =>
      let* st' := for_body node st in
      for_nodes l' st'
  end.

(** [while len(sample_vals) < len(self.nodes)], at most [fuel] passes. *)
Fixpoint while_loop (fuel : nat) (st : gmap string bool * nat)
    : result (gmap string bool * nat) :=
  if size (fst st) <? length nodes then
    match fuel with
    | 0 => OutOfFuel
    | S fuel' =>
        let* st' := for_nodes nodes st in
        while_loop fuel' st'
    end
  else Ok st.

Definition generate_sample (fuel : nat) (pos : nat) : result (gmap string bool * nat) :=
  while_loop fuel (∅, pos).

(** [[ self.generate_sample() for x in range(n) ]] *)
Fixpoint generate_samples (fuel : nat) (n : nat) (pos : nat)
    : result (list (gmap string bool) * nat) :=
  match n with
  | 0 => Ok ([], pos)
  | S n' =>
      let* (sample, pos1) := generate_sample fuel pos in
      let* (rest, pos2) := generate_samples fuel n' pos1 in
      Ok (sample :: rest, pos2)
  end.

(** The counting loop shared by the [get_prob] methods. *)
Definition count_matching (query_vals : gmap string bool)
    (samples : list (gmap string bool)) : nat :=
  fold_left (λ count dictionary,
               if all_items_eq query_vals dictionary then count + 1 else count)
            samples 0.

Definition get_prob (fuel : nat) (query_vals : gmap string bool) (num_samples : nat)
    (pos : nat) : result (Q * nat) :=
  let* (samples, pos') := generate_samples fuel num_samples pos in
  let count := count_matching query_vals samples in
  let* r := truediv (inject_Z (Z.of_nat count)) (inject_Z (Z.of_nat num_samples)) in
  Ok (r, pos').
End Sampler.
End SimpleSampler.

(** ** class RejectionSampler(SimpleSampler) *)

Module RejectionSampler.
Section Sampler.
Variable nodes : list BooleanVariableNode.
Variable random : nat → Q.

Definition generate_samples (fuel : nat) (n : nat) (evidence_vals : gmap string bool)
    (pos : nat) : result (list (gmap string bool) * nat) :=
  let* (unfiltered, pos') := SimpleSampler.generate_samples nodes random fuel n pos in
  let keeps :=
    fold_left (λ keeps sample,
                 if all_items_eq evidence_vals sample then keeps ++ [sample] else keeps)
              unfiltered [] in
  Ok (keeps, pos').

Definition get_prob (fuel : nat) (query_vals evidence_vals : gmap string bool)
    (num_samples : nat) (pos : nat) : result (Q * nat) :=
  let* (samples, pos') := generate_samples fuel num_samples evidence_vals pos in
  let count := SimpleSampler.count_matching query_vals samples in
  let* r := truediv (inject_Z (Z.of_nat count)) (inject_Z (Z.of_nat (length samples))) in
  Ok (r, pos').
End Sampler.
End RejectionSampler.

(** ** class LikelihoodWeightingSampler(SimpleSampler) *)

Module LikelihoodWeightingSampler.
Section Sampler.
Variable nodes : list BooleanVariableNode.
Variable random : nat → Q.

(** Body of the [for node in self.nodes] loop; the state carries the running
    [weight] as well. *)
Definition for_body (evidence_vals : gmap string bool) (node : BooleanVariableNode)
    (st : gmap string bool * Q * nat) : result (gmap string bool * Q * nat) :=
  let '(sample_vals, weight, pos) := st in
  let var := get_var node in
  if negb (node_in node sample_vals) then
    let parent_vars := get_parents node in
    if all (map (contains sample_vals) parent_vars) then
      let* parent_vals := list_comp (getitem sample_vals) parent_vars in
      match (evidence_vals !! var : option bool) with
      | Some val =>
          let* p := (if val then get_prob_true node parent_vals
                     else get_prob_false node parent_vals) in
          Ok (<[var := val]> sample_vals, (weight * p)%Q, pos)
      | None =>
          let* prob_true := get_prob_true node parent_vals in
          Ok (<[var := Qlt_bool (random pos) prob_true]> sample_vals, weight, S pos)
      end
    else Ok st
  else Ok st.

Fixpoint for_nodes (evidence_vals : gmap string bool) (l : list BooleanVariableNode)
    (st : gmap string bool * Q * nat) : result (gmap string bool * Q * nat) :=
  match l with
  | [] => Ok st
  | node :: l' =>
      let* st' := for_body evidence_vals node st in
      for_nodes evidence_vals l' st'
  end.

Fixpoint while_loop (evidence_vals : gmap string bool) (fuel : nat)
    (st : gmap string bool * Q * nat) : result (gmap string bool * Q * nat) :=
  if size (fst (fst st)) <? length nodes then
    match fuel with
    | 0 => OutOfFuel
    | S fuel' =>
        let* st' := for_nodes evidence_vals nodes st in
        while_loop evidence_vals fuel' st'
    end
  else Ok st.

Definition generate_sample (fuel : nat) (evidence_vals : gmap string bool) (pos : nat)
    : result (gmap string bool * Q * nat) :=
  while_loop evidence_vals fuel (∅, 1%Q, pos).

Fixpoint generate_samples (fuel : nat) (n : nat) (evidence_vals : gmap string bool)
    (pos : nat) : result (list (gmap string bool * Q) * nat) :=
  match n with
  | 0 => Ok ([], pos)
  | S n' =>
      let* (sample, weight, pos1) := generate_sample fuel evidence_vals pos in
      let* (rest, pos2) := generate_samples fuel n' evidence_vals pos1 in
      Ok ((sample, weight) :: rest, pos2)
  end.

(** The accumulation loop of [get_prob]: [count2] adds every weight, [count]
    the weights of the samples that match the query. *)
Definition accumulate (query_vals : gmap string bool)
    (samples : list (gmap string bool * Q)) : Q * Q :=
  fold_left (λ '(count, count2) toople,
               let count2 := (count2 + snd toople)%Q in
               let count := if all_items_eq query_vals (fst toople)
                            then (count + snd toople)%Q else count in
               (count, count2))
            samples (0%Q, 0%Q).

Definition get_prob (fuel : nat) (query_vals evidence_vals : gmap string bool)
    (num_samples : nat) (pos : nat) : result (Q * nat) :=
  let* (samples, pos') := generate_samples fuel num_samples evidence_vals pos in
  let '(count, count2) := accumulate query_vals samples in
  let* r := truediv count count2 in
  Ok (r, pos').
End Sampler.
End LikelihoodWeightingSampler.

(** ** Example networks *)

(** [FEVER_NODES] of the script. *)
Definition FEVER_NODES : list BooleanVariableNode :=
  [ new_node "E" [] {[ [] := (1#4)%Q ]};
    new_node "F" ["E"] (<[ [true] := (1#2)%Q ]> {[ [false] := (1#10)%Q ]});
    new_node "A" ["F"] (<[ [true] := (7#8)%Q ]> {[ [false] := (1#4)%Q ]});
    new_node "T" ["F"] (<[ [true] := (3#4)%Q ]> {[ [false] := (1#16)%Q ]}) ].

(** The first two nodes of [FEVER_NODES], child listed before its parent. *)
Definition CHILD_FIRST : list BooleanVariableNode :=
  [ new_node "F" ["E"] (<[ [true] := (1#2)%Q ]> {[ [false] := (1#10)%Q ]});
    new_node "E" [] {[ [] := (1#4)%Q ]} ].

(** A generator that returns 0.2, 0.3, 0.9 and then 0.0 for ever. *)
Definition draws_239 (i : nat) : Q := nth i [(1#5)%Q; (3#10)%Q; (9#10)%Q] 0%Q.

(** ** Well-formed networks *)

Definition names (nodes : list BooleanVariableNode) : list string := map get_var nodes.

(** [depends nodes x y]: a node of the list for variable [x] names [y] as a
    parent. *)
Definition depends (nodes : list BooleanVariableNode) (x y : string) : Prop :=
  ∃ node, node ∈ nodes ∧ get_var node = x ∧ y ∈ get_parents node.

(** The invariant of a network: unique names, parent references that name a
    node of the list, an acyclic dependency relation, and a CPT entry for every
    combination of parent values that an assignment of the variables gives. *)
Record well_formed (nodes : list BooleanVariableNode) : Prop := {
  wf_unique : NoDup (names nodes);
  wf_parents : ∀ node p, node ∈ nodes → p ∈ get_parents node → p ∈ names nodes;
  wf_acyclic : Irreflexive (tc (depends nodes));
  wf_cpt : ∀ node (σ : string → bool),
      node ∈ nodes → is_Some (cpt node !! map σ (get_parents node))
}.

(** ** Auxiliary definitions *)

(** The value a dictionary holds for a key, [False] when it holds none: the
    parent values read by the guarded list comprehension. *)
Definition read (d : gmap string bool) (p : string) : bool := default false (d !! p).

(** The state of the simple sampler seen as a state of likelihood weighting. *)
Definition with_weight (w : Q) (st : gmap string bool * nat) : gmap string bool * Q * nat :=
  (st.1, w, st.2).

(** A checker for [well_formed]: the dependency order is given as a list of
    names in which every parent comes before its children, and the CPT is
    checked on all tuples of the right length. *)
Fixpoint position (x : string) (order : list string) : nat :=
  match order with
  | [] => 0
  | y :: order' => if decide (x = y) then 0 else S (position x order')
  end.

Fixpoint tuples (n : nat) : list (list bool) :=
  match n with
  | 0 => [[]]
  | S n' => map (cons true) (tuples n') ++ map (cons false) (tuples n')
  end.

Definition check_node (nodes : list BooleanVariableNode) (order : list string)
    (node : BooleanVariableNode) : bool :=
  forallb (λ p, bool_decide (p ∈ names nodes)
                && (position p order <? position (get_var node) order))
          (get_parents node)
  && forallb (contains (cpt node)) (tuples (length (get_parents node))).

Definition check_network (nodes : list BooleanVariableNode) (order : list string) : bool :=
  bool_decide (NoDup (names nodes)) && forallb (check_node nodes order) nodes.

(** ** The properties the samplers are specified by *)

(** A sample agrees with a query or an evidence mapping [m] when it stores,
    for every entry [(var, val)] of [m], the value [val] for [var]. *)
Definition agrees (m sample : gmap string bool) : Prop :=
  map_Forall (λ var val, sample !! var = Some val) m.

#[global] Instance agrees_dec m sample : Decision (agrees m sample).
Proof. unfold agrees. apply _. Defined.

(** Forward sampling, as specified: the sample assigns every node; producing
    it took one draw per node; and the value of every node is the outcome of
    one of these draws against the node's CPT probability at the parent values
    of the finished sample. *)
Definition consistent_draw (random : nat → Q) (pos pos' : nat)
    (sample : gmap string bool) (node : BooleanVariableNode) : Prop :=
  ∃ prob_true i,
    get_prob_true node (map (read sample) (get_parents node)) = Ok prob_true ∧
    pos ≤ i < pos' ∧
    sample !! get_var node = Some (Qlt_bool (random i) prob_true).

Definition forward_sample_spec (nodes : list BooleanVariableNode) (random : nat → Q)
    (pos : nat) (sample : gmap string bool) (pos' : nat) : Prop :=
  (∀ node, node ∈ nodes → is_Some (sample !! get_var node)) ∧
  pos' = pos + length nodes ∧
  (∀ node, node ∈ nodes → consistent_draw random pos pos' sample node).

(** The weight of a sample, as specified: the product of one likelihood factor
    for each node whose variable is an evidence variable, [probabilityTrue] or
    [probabilityFalse] of the node at the parent values of the sample. *)
Definition likelihood_factor (sample : gmap string bool) (node : BooleanVariableNode)
    (val : bool) : result Q :=
  let parent_vals := map (read sample) (get_parents node) in
  if val then get_prob_true node parent_vals else get_prob_false node parent_vals.

Fixpoint evidence_likelihood (evidence_vals sample : gmap string bool)
    (l : list BooleanVariableNode) : result Q :=
  match l with
  | [] => Ok 1%Q
  | node :: l' =>
      match (evidence_vals !! get_var node : option bool) with
      | Some val =>
          let* p := likelihood_factor sample node val in
          let* rest := evidence_likelihood evidence_vals sample l' in
          Ok (p * rest)%Q
      | None => evidence_likelihood evidence_vals sample l'
      end
  end.

(** The weighted estimate, as specified: [Σ weight_i · match_i / Σ weight_i]. *)
Definition match_indicator (query_vals sample : gmap string bool) : Q :=
  if decide (agrees query_vals sample) then 1%Q else 0%Q.

Definition weighted_matches (query_vals : gmap string bool)
    (samples : list (gmap string bool * Q)) : Q :=
  foldr (λ toople acc, (snd toople * match_indicator query_vals (fst toople) + acc)%Q)
        0%Q samples.

Definition total_weight (samples : list (gmap string bool * Q)) : Q :=
  foldr (λ toople acc, (snd toople + acc)%Q) 0%Q samples.

(** Samples of [FEVER_NODES], by the values of [E], [F], [A] and [T]. *)
Definition fever_sample (e f a t : bool) : gmap string bool :=
  <["E" := e]> (<["F" := f]> (<["A" := a]> {["T" := t]})).

(** [CHILD_FIRST] with the CPT entry of [F] for [E = False] left out. *)
Definition INCOMPLETE : list BooleanVariableNode :=
  [ new_node "F" ["E"] {[ [true] := (1#2)%Q ]};
    new_node "E" [] {[ [] := (1#4)%Q ]} ].

(** A generator that returns 0.9 for ever. *)
Definition draws_9 (i : nat) : Q := (9#10)%Q.

(** An exception of an inner computation that is the outcome of the outer
    one: nothing in between catches or replaces it. *)
Definition raises_through {A B : Type} (inner : result A) (outer : result B) : Prop :=
  ∀ e, inner = Raise e → outer = Raise e.

(** A node list in dependency order: the parents of every node are nodes
    listed before it. *)
Definition dependency_ordered (nodes : list BooleanVariableNode) : Prop :=
  ∀ l1 node l2, nodes = l1 ++ node :: l2 →
                ∀ p, p ∈ get_parents node → p ∈ names l1.

(** The number of calls to [random.random()] that resolving each node of [l]
    once takes: one for every node that is not an evidence variable. *)
Definition draws_needed (evidence_vals : gmap string bool)
    (l : list BooleanVariableNode) : nat :=
  length (filter (λ node, evidence_vals !! get_var node = None) l).

(** Two outcomes of an estimator that are the same: the same exception, or
    equal numbers after the same number of draws. *)
Definition same_estimate (a b : result (Q * nat)) : Prop :=
  match a, b with
  | Ok (r1, pos1), Ok (r2, pos2) => (r1 == r2)%Q ∧ pos1 = pos2
  | Raise e1, Raise e2 => e1 = e2
  | OutOfFuel, OutOfFuel => True
  | _, _ => False
  end.

(** Two nodes that are each other's parent. *)
Definition CYCLIC : list BooleanVariableNode :=
  [ new_node "A" ["B"] (<[ [true] := (1#2)%Q ]> {[ [false] := (1#2)%Q ]});
    new_node "B" ["A"] (<[ [true] := (1#2)%Q ]> {[ [false] := (1#2)%Q ]}) ].

(** ** Plotting

    [matplotlib.pyplot] is outside the program: a call to it is recorded, with
    its arguments, in the list of calls that the plotting functions return. *)

Inductive plt_call : Type :=
| plt_plot (xvals : list Z) (yvals : list Q) (label color marker linestyle : string)
| plt_title (title : string)
| plt_legend
| plt_savefig (outfile_path : string).

Definition two_line_plot (xvals1 : list Z) (yvals1 : list Q) (label1 : string)
    (xvals2 : list Z) (yvals2 : list Q) (label2 : string)
    (title outfile_path : string) : list plt_call :=
  [ plt_plot xvals1 yvals1 label1 "blue" "." "solid";
    plt_plot xvals2 yvals2 label2 "green" "." "solid";
    plt_title title;
    plt_legend;
    plt_savefig outfile_path ].

(** [range(start, stop, step)] for a positive [step]. *)
Definition range (start stop step : Z) : list Z :=
  map (λ k, (start + Z.of_nat k * step)%Z)
      (seq 0 (Z.to_nat ((stop - start + step - 1) / step))).

(** [bayes_sample_size_plot(sampler1, sampler2, query, evidence, label1,
    label2, title, fname)].  The body reads the samples of [sampler1] as
    dictionaries and those of [sampler2] as pairs of a dictionary and a weight:
    [sampler1] is a [RejectionSampler] (over [nodes1]) and [sampler2] a
    [LikelihoodWeightingSampler] (over [nodes2]), as in the call of the script.
    The comparison [str(dictionary[k]) == str(v)] of the first loop is
    [dictionary[k] == v] on Booleans. *)
Section Plot.
Variable nodes1 nodes2 : list BooleanVariableNode.
Variable random : nat → Q.

(** Body of [for i in range(20,10000,100)]; the state is [a1], [a2] and the
    number of calls made to [random.random()]. *)
Definition plot_body (fuel : nat) (query evidence : gmap string bool) (i : Z)
    (st : list Q * list Q * nat) : result (list Q * list Q * nat) :=
  let '(a1, a2, pos) := st in
  let* (samples1, pos1) :=
    RejectionSampler.generate_samples nodes1 random fuel (Z.to_nat i) evidence pos in
  let* (samples2, pos2) :=
    LikelihoodWeightingSampler.generate_samples nodes2 random fuel (Z.to_nat i)
      evidence pos1 in
  let count := SimpleSampler.count_matching query samples1 in
  let* y1 := truediv (inject_Z (Z.of_nat count))
                     (inject_Z (Z.of_nat (length samples1))) in
  let '(count, count2) := LikelihoodWeightingSampler.accumulate query samples2 in
  let* y2 := truediv count count2 in
  Ok (a1 ++ [y1], a2 ++ [y2], pos2).

Fixpoint plot_loop (fuel : nat) (query evidence : gmap string bool) (l : list Z)
    (st : list Q * list Q * nat) : result (list Q * list Q * nat) :=
  match l with
  | [] => Ok st
  | i :: l' =>
      let* st' := plot_body fuel query evidence i st in
      plot_loop fuel query evidence l' st'
  end.

Definition bayes_sample_size_plot (fuel : nat) (query evidence : gmap string bool)
    (label1 label2 title fname : string) (pos : nat) : result (list plt_call * nat) :=
  let* (a1, a2, pos') :=
    plot_loop fuel query evidence (range 20 10000 100) ([], [], pos) in
  let xaxis := range 20 10000 100 in
  Ok (two_line_plot xaxis a1 "sampler1" xaxis a2 "sampler2"
        "Sampler1 vs. Sampler2" "383fig.pdf", pos').
End Plot.

(** * Properties *)

(** ** The result monad *)

Lemma bind_Ok_inv {A B : Type} (m : result A) (k : A → result B) (b : B) :
  bind m k = Ok b → ∃ a, m = Ok a ∧ k a = Ok b.
Proof. destruct m as [a| |]; simpl; intros Hb; try discriminate. by exists a. Qed.

Lemma bind_Raise_inv {A B : Type} (m : result A) (k : A → result B) (e : exn) :
  bind m k = Raise e → m = Raise e ∨ ∃ a, m = Ok a ∧ k a = Raise e.
Proof.
  destruct m as [a|e'|]; simpl; intros Hb; try discriminate.
  - right. by exists a.
  - left. by injection Hb as ->.
Qed.

(** ** Python primitives *)

Lemma all_map_true {A : Type} (f : A → bool) (l : list A) :
  all (map f l) = true ↔ ∀ x, x ∈ l → f x = true.
Proof.
  unfold all. induction l as [|a l IH]; simpl.
  - split; [intros _ x Hx; inversion Hx | done].
  - rewrite andb_true_iff, IH. unfold id. split.
    + intros [Ha Hl] x Hx. apply elem_of_cons in Hx as [->|Hx]; auto.
    + intros Hall. split; [apply Hall; left | intros x Hx; apply Hall; by right].
Qed.

Lemma contains_true {K V : Type} `{Countable K} (d : gmap K V) (k : K) :
  contains d k = true ↔ k ∈ dom d.
Proof.
  unfold contains. rewrite elem_of_dom. destruct (d !! k) as [v|] eqn:Hk.
  - split; [eauto | done].
  - split; [done | intros [v Hv]; discriminate].
Qed.

Lemma get_eq_true (d : gmap string bool) (k : string) (v : bool) :
  get_eq d k v = true ↔ d !! k = Some v.
Proof.
  unfold get_eq. destruct (d !! k) as [x|]; [|done].
  rewrite eqb_true_iff. split; congruence.
Qed.

(** The generator expression over [m.items()] holds exactly when the sample
    stores, for every entry of [m], the value of that entry. *)
Lemma all_items_eq_true (m d : gmap string bool) :
  all_items_eq m d = true ↔ ∀ k v, m !! k = Some v → d !! k = Some v.
Proof.
  unfold all_items_eq, items. rewrite all_map_true. split.
  - intros Hall k v Hk. apply get_eq_true.
    apply (Hall (k, v)). by apply elem_of_map_to_list.
  - intros Hall [k v] Hkv. apply get_eq_true, Hall.
    by apply elem_of_map_to_list.
Qed.

Lemma list_comp_getitem (d : gmap string bool) (l : list string) :
  all (map (contains d) l) = true →
  list_comp (getitem d) l = Ok (map (read d) l).
Proof.
  rewrite all_map_true. induction l as [|p l IH]; intros Hall; [done|].
  simpl. assert (Hp : p ∈ dom d) by (apply contains_true, Hall; left).
  apply elem_of_dom in Hp as [b Hb]. unfold getitem at 1, read at 1. rewrite Hb. simpl.
  rewrite IH; [done|]. intros x Hx. apply Hall. by right.
Qed.

(** ** One step and one pass of the likelihood-weighting loop *)

Section LW_pass.
Variable random : nat → Q.
Variable evidence_vals : gmap string bool.

#[local] Abbreviation for_body := (LikelihoodWeightingSampler.for_body random evidence_vals).
#[local] Abbreviation for_nodes := (LikelihoodWeightingSampler.for_nodes random evidence_vals).

(** The step with the guarded list comprehension evaluated. *)
Lemma lw_for_body_eq node s w pos :
  for_body node (s, w, pos) =
    if all (map (contains s) (get_parents node)) then
      let parent_vals := map (read s) (get_parents node) in
      match (evidence_vals !! get_var node : option bool) with
      | Some val =>
          let* p := (if val then get_prob_true node parent_vals
                     else get_prob_false node parent_vals) in
          Ok (<[get_var node := val]> s, (w * p)%Q, pos)
      | None =>
          let* prob_true := get_prob_true node parent_vals in
          Ok (<[get_var node := Qlt_bool (random pos) prob_true]> s, w, S pos)
      end
    else Ok (s, w, pos).
Proof.
  unfold LikelihoodWeightingSampler.for_body, node_in. simpl negb. cbv iota.
  destruct (all (map (contains s) (get_parents node))) eqn:Hall; [|done].
  by rewrite list_comp_getitem.
Qed.

(** What a successful step does to the state. *)
Lemma lw_for_body_Ok node s w pos s' w' pos' :
  for_body node (s, w, pos) = Ok (s', w', pos') →
  (all (map (contains s) (get_parents node)) = false ∧ s' = s ∧ w' = w ∧ pos' = pos)
  ∨ (all (map (contains s) (get_parents node)) = true ∧
     ((∃ (val : bool) p, evidence_vals !! get_var node = Some val ∧
                (if val then get_prob_true node (map (read s) (get_parents node))
                 else get_prob_false node (map (read s) (get_parents node))) = Ok p ∧
                s' = <[get_var node := val]> s ∧ w' = (w * p)%Q ∧ pos' = pos)
      ∨ (∃ prob_true, evidence_vals !! get_var node = None ∧
                get_prob_true node (map (read s) (get_parents node)) = Ok prob_true ∧
                s' = <[get_var node := Qlt_bool (random pos) prob_true]> s ∧
                w' = w ∧ pos' = S pos))).
Proof.
  rewrite lw_for_body_eq.
  destruct (all (map (contains s) (get_parents node))) eqn:Hall.
  - intros Hstep. right. split; [done|]. cbv zeta in Hstep.
    destruct (evidence_vals !! get_var node) as [val|] eqn:Hev.
    + apply bind_Ok_inv in Hstep as (p & Hp & Hret). injection Hret as <- <- <-.
      left. by exists val, p.
    + apply bind_Ok_inv in Hstep as (p & Hp & Hret). injection Hret as <- <- <-.
      right. by exists p.
  - intros [= <- <- <-]. by left.
Qed.

(** A successful step adds at most the node's own variable. *)
Lemma lw_for_body_dom node s w pos s' w' pos' :
  for_body node (s, w, pos) = Ok (s', w', pos') →
  dom s ⊆ dom s' ∧ dom s' ⊆ {[get_var node]} ∪ dom s.
Proof.
  intros [(_ & -> & _)|(_ & [(val & p & _ & _ & -> & _)|(p & _ & _ & -> & _)])]%lw_for_body_Ok;
    rewrite ?dom_insert_L; set_solver.
Qed.

(** A node whose parents are all assigned is assigned by a successful step. *)
Lemma lw_for_body_assigns node s w pos s' w' pos' :
  (∀ p, p ∈ get_parents node → p ∈ dom s) →
  for_body node (s, w, pos) = Ok (s', w', pos') →
  get_var node ∈ dom s'.
Proof.
  intros Hpar Hstep.
  assert (Hall : all (map (contains s) (get_parents node)) = true).
  { apply all_map_true. intros p Hp. by apply contains_true, Hpar. }
  apply lw_for_body_Ok in Hstep
    as [(Hno & _)|(_ & [(val & p & _ & _ & -> & _)|(p & _ & _ & -> & _)])];
    [congruence | rewrite dom_insert_L; set_solver ..].
Qed.

(** With a CPT entry for every parent-value combination the step cannot
    raise. *)
Lemma lw_for_body_total node st :
  (∀ σ : string → bool, is_Some (cpt node !! map σ (get_parents node))) →
  ∃ st', for_body node st = Ok st'.
Proof.
  intros Hcpt. destruct st as [[s w] pos]. rewrite lw_for_body_eq.
  destruct (all (map (contains s) (get_parents node))); [|eauto].
  cbv zeta. destruct (Hcpt (read s)) as [q Hq].
  unfold get_prob_false, get_prob_true, getitem. rewrite Hq.
  destruct (evidence_vals !! get_var node) as [[]|]; simpl; eauto.
Qed.

(** Invariants are carried through a pass node by node. *)
Lemma lw_for_nodes_inv (P : gmap string bool * Q * nat → Prop) l st st' :
  (∀ node st0 st1, node ∈ l → P st0 → for_body node st0 = Ok st1 → P st1) →
  P st → for_nodes l st = Ok st' → P st'.
Proof.
  revert st. induction l as [|node l IH]; intros st Hstep HP Hrun; simpl in Hrun.
  - by injection Hrun as <-.
  - apply bind_Ok_inv in Hrun as (st1 & Hbody & Hrest).
    apply (IH st1); [|by eapply Hstep; [left|..]|done].
    intros node' st0 st2 Hin. apply Hstep. by right.
Qed.

Lemma lw_for_nodes_dom l st st' :
  for_nodes l st = Ok st' →
  dom st.1.1 ⊆ dom st'.1.1 ∧ dom st'.1.1 ⊆ list_to_set (names l) ∪ dom st.1.1.
Proof.
  revert st. induction l as [|node l IH]; intros st Hrun; simpl in Hrun.
  - injection Hrun as <-. set_solver.
  - apply bind_Ok_inv in Hrun as (st1 & Hbody & Hrest).
    destruct st as [[s w] pos], st1 as [[s1 w1] pos1].
    apply lw_for_body_dom in Hbody as [Hb1 Hb2]. apply IH in Hrest as [Hr1 Hr2].
    simpl in *. split; [by etrans|].
    intros x [Hx|Hx]%Hr2%elem_of_union.
    + apply elem_of_union. left. apply elem_of_union. by right.
    + apply Hb2, elem_of_union in Hx as [Hx|Hx].
      * apply elem_of_union. left. apply elem_of_union. by left.
      * apply elem_of_union. by right.
Qed.

Lemma lw_for_nodes_assigns node l st st' :
  node ∈ l →
  (∀ p, p ∈ get_parents node → p ∈ dom st.1.1) →
  for_nodes l st = Ok st' →
  get_var node ∈ dom st'.1.1.
Proof.
  revert st. induction l as [|node' l IH]; intros st Hin Hpar Hrun; simpl in Hrun.
  - inversion Hin.
  - apply bind_Ok_inv in Hrun as (st1 & Hbody & Hrest).
    destruct st as [[s w] pos], st1 as [[s1 w1] pos1]. simpl in *.
    apply elem_of_cons in Hin as [<-|Hin].
    + apply (lw_for_body_assigns _ _ _ _ _ _ _ Hpar) in Hbody.
      apply lw_for_nodes_dom in Hrest as [Hsub _]. by apply Hsub.
    + apply (IH (s1, w1, pos1)); [done| |done]. simpl.
      apply lw_for_body_dom in Hbody as [Hsub _]. intros p Hp. by apply Hsub, Hpar.
Qed.

Lemma lw_for_nodes_total l st :
  (∀ node (σ : string → bool),
      node ∈ l → is_Some (cpt node !! map σ (get_parents node))) →
  ∃ st', for_nodes l st = Ok st'.
Proof.
  revert st. induction l as [|node l IH]; intros st Hcpt; simpl; [eauto|].
  destruct (lw_for_body_total node st) as [st1 ->].
  { intros σ. apply Hcpt. left. }
  simpl. apply IH. intros node' σ Hin. apply Hcpt. by right.
Qed.
End LW_pass.

(** ** Dependency order *)

Section Dependencies.
Variable nodes : list BooleanVariableNode.
Hypothesis Hwf : well_formed nodes.

Lemma depends_in_names x y : tc (depends nodes) x y → y ∈ names nodes.
Proof.
  induction 1 as [x y (node & Hin & _ & Hp)|x y z _ _ IH]; [|done].
  by eapply wf_parents.
Qed.

Lemma depends_sn x : sn (depends nodes) x.
Proof.
  apply tc_finite_sn; [apply Hwf|].
  exists (names nodes). intros y. apply depends_in_names.
Qed.

(** While some variable is unassigned, some unassigned node has all its
    parents assigned. *)
Lemma exists_ready_node (s : gmap string bool) :
  dom s ⊆ list_to_set (names nodes) →
  size s < length nodes →
  ∃ node, node ∈ nodes ∧ (get_var node ∉ dom s) ∧
          (∀ p, p ∈ get_parents node → p ∈ dom s).
Proof.
  intros Hdom Hsize.
  assert (Hx : ∃ x, x ∈ names nodes ∧ x ∉ dom s).
  { destruct (size_pos_elem_of ((list_to_set (names nodes) ∖ dom s) : gset string)) as [x Hx].
    - rewrite size_difference by done.
      rewrite size_list_to_set by apply Hwf.
      rewrite size_dom. unfold names. rewrite length_map. lia.
    - exists x. set_solver. }
  destruct Hx as (x & Hx & Hnx). revert Hx Hnx.
  induction (depends_sn x) as [x _ IH]. intros Hx Hnx.
  apply list_elem_of_fmap in Hx as (node & -> & Hnode).
  destruct (decide (Forall (λ p, p ∈ dom s) (get_parents node))) as [Hall|Hnot].
  - exists node. rewrite Forall_forall in Hall. auto.
  - apply not_Forall_Exists in Hnot; [|solve_decision].
    apply Exists_exists in Hnot as (p & Hp & Hnp).
    apply (IH p); [by exists node | by eapply wf_parents | done].
Qed.
End Dependencies.

(** ** The resolution loop of likelihood weighting *)

Section LW_loop.
Variable nodes : list BooleanVariableNode.
Variable random : nat → Q.
Variable evidence_vals : gmap string bool.

#[local] Abbreviation lw_pass :=
  (LikelihoodWeightingSampler.for_nodes random evidence_vals nodes).
#[local] Abbreviation lw_loop :=
  (LikelihoodWeightingSampler.while_loop nodes random evidence_vals).

Lemma lw_while_eq fuel st :
  lw_loop fuel st =
    if size st.1.1 <? length nodes then
      match fuel with
      | 0 => OutOfFuel
      | S fuel' => let* st' := lw_pass st in lw_loop fuel' st'
      end
    else Ok st.
Proof. by destruct fuel. Qed.

(** An invariant of the passes holds of the returned state, and the loop
    returns only once the dictionary has as many keys as there are nodes. *)
Lemma lw_while_inv (P : gmap string bool * Q * nat → Prop) fuel st st' :
  (∀ st0 st1, P st0 → lw_pass st0 = Ok st1 → P st1) →
  P st → lw_loop fuel st = Ok st' →
  P st' ∧ length nodes ≤ size st'.1.1.
Proof.
  intros Hpass. revert st. induction fuel as [|fuel IH]; intros st HP;
    rewrite lw_while_eq; destruct (Nat.ltb_spec (size st.1.1) (length nodes)) as [Hlt|Hge];
    intros Hrun; try discriminate.
  - by injection Hrun as <-.
  - apply bind_Ok_inv in Hrun as (st1 & Hp & Hrest). eauto.
  - by injection Hrun as <-.
Qed.

(** The keys of the dictionary are names of nodes, at every point. *)
Lemma lw_pass_names st st' :
  dom st.1.1 ⊆ list_to_set (names nodes) →
  lw_pass st = Ok st' →
  dom st'.1.1 ⊆ list_to_set (names nodes).
Proof.
  intros Hdom [_ Hsub]%lw_for_nodes_dom. intros x [Hx|Hx]%Hsub%elem_of_union; auto.
Qed.

Hypothesis Hwf : well_formed nodes.

(** A pass over an incomplete dictionary assigns at least one new variable. *)
Lemma lw_pass_progress st st' :
  dom st.1.1 ⊆ list_to_set (names nodes) →
  size st.1.1 < length nodes →
  lw_pass st = Ok st' →
  size st.1.1 < size st'.1.1.
Proof.
  intros Hdom Hsize Hpass.
  destruct (exists_ready_node nodes Hwf _ Hdom Hsize) as (node & Hin & Hnew & Hpar).
  pose proof (lw_for_nodes_assigns _ _ _ _ _ _ Hin Hpar Hpass) as Hvar.
  apply lw_for_nodes_dom in Hpass as [Hmono _].
  rewrite <- !(size_dom (D := gset string)). apply subset_size.
  split; [done|]. intros Hback. by apply Hnew, Hback.
Qed.

(** The loop returns within as many passes as there are variables left to
    assign. *)
Lemma lw_while_terminates fuel st :
  dom st.1.1 ⊆ list_to_set (names nodes) →
  length nodes ≤ size st.1.1 + fuel →
  ∃ st', lw_loop fuel st = Ok st'.
Proof.
  revert st. induction fuel as [|fuel IH]; intros st Hdom Hfuel;
    rewrite lw_while_eq; destruct (Nat.ltb_spec (size st.1.1) (length nodes)) as [Hlt|Hge];
    eauto; [lia|].
  destruct (lw_for_nodes_total random evidence_vals nodes st) as [st1 Hpass].
  { intros node σ Hin. by apply Hwf. }
  rewrite Hpass. simpl. apply IH; [by eapply lw_pass_names|].
  pose proof (lw_pass_progress _ _ Hdom Hlt Hpass). lia.
Qed.
End LW_loop.

(** ** Checking well-formedness *)

Lemma ranked_acyclic nodes (rank : string → nat) :
  (∀ node p, node ∈ nodes → p ∈ get_parents node → rank p < rank (get_var node)) →
  Irreflexive (tc (depends nodes)).
Proof.
  intros Hrank.
  assert (Hlt : ∀ x y, tc (depends nodes) x y → rank y < rank x).
  { induction 1 as [x y (node & Hin & <- & Hp)|x y z (node & Hin & <- & Hp) _ IH].
    - by apply Hrank.
    - specialize (Hrank node y Hin Hp). lia. }
  intros x Hx. apply Hlt in Hx. lia.
Qed.

Lemma tuples_complete (l : list bool) : l ∈ tuples (length l).
Proof.
  induction l as [|b l IH]; simpl; [by left|].
  apply elem_of_app. destruct b; [left|right]; by apply list_elem_of_fmap_2.
Qed.

Lemma check_network_sound nodes order :
  check_network nodes order = true → well_formed nodes.
Proof.
  unfold check_network. rewrite andb_true_iff, forallb_forall.
  intros [Hnodup Hnodes]. apply bool_decide_eq_true in Hnodup.
  assert (Hnode : ∀ node, node ∈ nodes →
            (∀ p, p ∈ get_parents node →
                  p ∈ names nodes ∧ position p order < position (get_var node) order) ∧
            (∀ pv, length pv = length (get_parents node) → is_Some (cpt node !! pv))).
  { intros node Hin%list_elem_of_In%Hnodes. unfold check_node in Hin.
    rewrite andb_true_iff, !forallb_forall in Hin. destruct Hin as [Hpar Hcpt]. split.
    - intros p Hp%list_elem_of_In%Hpar. rewrite andb_true_iff in Hp.
      destruct Hp as [Hp1 Hp2]. apply bool_decide_eq_true in Hp1.
      by apply Nat.ltb_lt in Hp2.
    - intros pv Hlen. apply elem_of_dom. apply contains_true.
      apply Hcpt, list_elem_of_In. rewrite <- Hlen. apply tuples_complete. }
  split; [done|..].
  - intros node p Hin Hp. by destruct (Hnode node Hin) as [[Hnames _]%(λ H, H p Hp) _].
  - apply (ranked_acyclic nodes (λ x, position x order)).
    intros node p Hin Hp. by destruct (Hnode node Hin) as [[_ Hpos]%(λ H, H p Hp) _].
  - intros node σ Hin. destruct (Hnode node Hin) as [_ Hcpt].
    apply Hcpt. by rewrite length_map.
Qed.

Lemma FEVER_NODES_well_formed : well_formed FEVER_NODES.
Proof. by apply (check_network_sound _ ["E"; "F"; "A"; "T"]). Qed.

Lemma CHILD_FIRST_well_formed : well_formed CHILD_FIRST.
Proof. by apply (check_network_sound _ ["E"; "F"]). Qed.

(** ** The simple sampler is likelihood weighting without evidence *)

Section Simple_as_LW.
Variable nodes : list BooleanVariableNode.
Variable random : nat → Q.

Lemma simple_for_body_lw node st w :
  LikelihoodWeightingSampler.for_body random ∅ node (with_weight w st) =
    let* st' := SimpleSampler.for_body random node st in Ok (with_weight w st').
Proof.
  destruct st as [s pos].
  unfold with_weight, LikelihoodWeightingSampler.for_body, SimpleSampler.for_body.
  simpl. destruct (all (map (contains s) (get_parents node))); [|done].
  destruct (list_comp (getitem s) (get_parents node)) as [pv| |]; simpl; try done.
  rewrite lookup_empty. by destruct (get_prob_true node pv).
Qed.

Lemma simple_for_nodes_lw l st w :
  LikelihoodWeightingSampler.for_nodes random ∅ l (with_weight w st) =
    let* st' := SimpleSampler.for_nodes random l st in Ok (with_weight w st').
Proof.
  revert st. induction l as [|node l IH]; intros st; [done|].
  cbn [LikelihoodWeightingSampler.for_nodes SimpleSampler.for_nodes].
  rewrite simple_for_body_lw.
  destruct (SimpleSampler.for_body random node st) as [st1| |]; cbn [bind]; [|done..].
  apply IH.
Qed.

Lemma simple_while_lw fuel st w :
  LikelihoodWeightingSampler.while_loop nodes random ∅ fuel (with_weight w st) =
    let* st' := SimpleSampler.while_loop nodes random fuel st in Ok (with_weight w st').
Proof.
  revert st. induction fuel as [|fuel IH]; intros st;
    cbn [LikelihoodWeightingSampler.while_loop SimpleSampler.while_loop];
    change (with_weight w st).1.1 with st.1;
    destruct (size st.1 <? length nodes); try done.
  rewrite simple_for_nodes_lw.
  destruct (SimpleSampler.for_nodes random nodes st) as [st1| |]; cbn [bind]; [|done..].
  apply IH.
Qed.

Lemma simple_generate_sample_lw fuel pos :
  LikelihoodWeightingSampler.generate_sample nodes random fuel ∅ pos =
    let* st' := SimpleSampler.generate_sample nodes random fuel pos in
    Ok (with_weight 1%Q st').
Proof. apply (simple_while_lw fuel (∅, pos) 1%Q). Qed.
End Simple_as_LW.

(** ** The pass budget *)

(** A loop that returns or raises within [fuel] passes does the same with any
    larger budget: the budget is only ever the reason for [OutOfFuel]. *)
Lemma lw_while_fuel_mono nodes random evidence_vals fuel fuel' st r :
  LikelihoodWeightingSampler.while_loop nodes random evidence_vals fuel st = r →
  r ≠ OutOfFuel → fuel ≤ fuel' →
  LikelihoodWeightingSampler.while_loop nodes random evidence_vals fuel' st = r.
Proof.
  revert fuel' st. induction fuel as [|fuel IH]; intros fuel' st; rewrite !lw_while_eq;
    destruct (size st.1.1 <? length nodes); try done.
  intros Hrun Hr Hle. destruct fuel' as [|fuel']; [lia|].
  destruct (LikelihoodWeightingSampler.for_nodes random evidence_vals nodes st)
    as [st1| |]; simpl in *; [|done..].
  apply IH; [done..|lia].
Qed.

Lemma simple_while_fuel_mono nodes random fuel fuel' st r :
  SimpleSampler.while_loop nodes random fuel st = r →
  r ≠ OutOfFuel → fuel ≤ fuel' →
  SimpleSampler.while_loop nodes random fuel' st = r.
Proof.
  revert fuel' st. induction fuel as [|fuel IH]; intros fuel' st; simpl.
  - destruct fuel'; simpl; destruct (size st.1 <? length nodes); try done;
      intros <- Hr; by destruct Hr.
  - intros Hrun Hr Hle. destruct fuel' as [|fuel']; [lia|]. simpl.
    destruct (size st.1 <? length nodes); [|done].
    destruct (SimpleSampler.for_nodes random nodes st) as [st1| |]; simpl in *; [|done..].
    apply IH; [done..|lia].
Qed.

(** ** Termination of the resolution loop *)

Lemma lw_generate_sample_terminates nodes random evidence_vals pos :
  well_formed nodes →
  ∃ st, LikelihoodWeightingSampler.generate_sample nodes random (length nodes)
          evidence_vals pos = Ok st.
Proof.
  intros Hwf. apply lw_while_terminates; [done| |simpl; lia].
  simpl. rewrite dom_empty_L. apply empty_subseteq.
Qed.

Lemma simple_generate_sample_terminates nodes random pos :
  well_formed nodes →
  ∃ st, SimpleSampler.generate_sample nodes random (length nodes) pos = Ok st.
Proof.
  intros Hwf.
  destruct (lw_generate_sample_terminates nodes random ∅ pos Hwf) as [st Hst].
  rewrite simple_generate_sample_lw in Hst.
  apply bind_Ok_inv in Hst as (st' & Hst' & _). eauto.
Qed.

(** C7. In a well-formed network (unique names, parent references that name
    nodes of the list, an acyclic dependency relation, a CPT entry for every
    reachable combination of parent values) the resolution loop of forward
    sampling, and of its evidence-forcing variant, returns after at most
    [length nodes] passes over the node list: a budget of [length nodes]
    passes suffices, for every sequence of random draws and every evidence,
    and a larger budget gives the same result. *)
Theorem resolution_loop_terminates nodes random evidence_vals pos :
  well_formed nodes →
  (∃ st, ∀ fuel, length nodes ≤ fuel →
      SimpleSampler.generate_sample nodes random fuel pos = Ok st) ∧
  (∃ st, ∀ fuel, length nodes ≤ fuel →
      LikelihoodWeightingSampler.generate_sample nodes random fuel evidence_vals pos = Ok st).
Proof.
  intros Hwf. split.
  - destruct (simple_generate_sample_terminates nodes random pos Hwf) as [st Hst].
    exists st. intros fuel Hfuel. by eapply simple_while_fuel_mono.
  - destruct (lw_generate_sample_terminates nodes random evidence_vals pos Hwf) as [st Hst].
    exists st. intros fuel Hfuel. by eapply lw_while_fuel_mono.
Qed.

Lemma resolution_loop_terminates_witness :
  well_formed CHILD_FIRST ∧
  (∃ st, ∀ fuel, length CHILD_FIRST ≤ fuel →
      SimpleSampler.generate_sample CHILD_FIRST draws_239 fuel 0 = Ok st) ∧
  (∃ st, ∀ fuel, length CHILD_FIRST ≤ fuel →
      LikelihoodWeightingSampler.generate_sample CHILD_FIRST draws_239 fuel
        {["E" := true]} 0 = Ok st).
Proof.
  split; [exact CHILD_FIRST_well_formed|].
  exact (resolution_loop_terminates CHILD_FIRST draws_239 {["E" := true]} 0
           CHILD_FIRST_well_formed).
Defined.

(** ** BooleanVariableNode *)

(** C9. Wherever [get_prob_true] is defined, [get_prob_false] is exactly one
    minus its value; [get_prob_false] has no storage of its own: it is
    determined by what [get_prob_true] returns, also when that is an
    exception. *)
Theorem get_prob_false_complement (self : BooleanVariableNode) (pv : list bool) (p : Q) :
  get_prob_true self pv = Ok p →
  get_prob_false self pv = Ok (1 - p)%Q ∧
  ∀ other : BooleanVariableNode,
    get_prob_true other pv = get_prob_true self pv →
    get_prob_false other pv = get_prob_false self pv.
Proof.
  intros Htrue. split.
  - unfold get_prob_false. by rewrite Htrue.
  - intros other Hsame. unfold get_prob_false. by rewrite Hsame.
Qed.

Lemma get_prob_false_complement_witness :
  get_prob_true (new_node "F" ["E"] (<[ [true] := (1#2)%Q ]> {[ [false] := (1#10)%Q ]}))
    [false] = Ok (1#10)%Q ∧
  get_prob_false (new_node "F" ["E"] (<[ [true] := (1#2)%Q ]> {[ [false] := (1#10)%Q ]}))
    [false] = Ok (1 - (1#10))%Q.
Proof.
  split; [reflexivity|].
  apply (get_prob_false_complement _ [false] (1#10)%Q). reflexivity.
Defined.

(** ** Forward sampling on a list that names a child before its parent *)

(** The step draws a value for every node whose parents are assigned, whether
    or not the node has a value already. *)
Lemma simple_for_body_ready random node s pos prob_true :
  (∀ p, p ∈ get_parents node → p ∈ dom s) →
  get_prob_true node (map (read s) (get_parents node)) = Ok prob_true →
  SimpleSampler.for_body random node (s, pos)
    = Ok (<[get_var node := Qlt_bool (random pos) prob_true]> s, S pos).
Proof.
  intros Hpar Hprob.
  assert (Hall : all (map (contains s) (get_parents node)) = true).
  { apply all_map_true. intros p Hp. by apply contains_true, Hpar. }
  unfold SimpleSampler.for_body, node_in. simpl negb. cbv iota zeta.
  rewrite Hall, list_comp_getitem by done. simpl. by rewrite Hprob.
Qed.

(** C1, on [CHILD_FIRST] with the draws 0.2, 0.3, 0.9.  The first pass skips
    [F] and draws [E = True]; the second pass draws [F = True] against
    [P(F | E = True) = 0.5] and then draws [E] again, now [False].  The sample
    took three draws for two nodes, and the value of [F] it holds is the
    outcome of no draw against [P(F | E = False) = 0.1], the CPT probability at
    the parent value that remains in the sample. *)
Theorem simple_sampler_redraws_assigned_nodes :
  SimpleSampler.for_nodes draws_239 CHILD_FIRST (∅, 0) = Ok ({["E" := true]}, 1) ∧
  SimpleSampler.for_nodes draws_239 CHILD_FIRST ({["E" := true]}, 1)
    = Ok (<["F" := true]> {["E" := false]}, 3) ∧
  SimpleSampler.generate_sample CHILD_FIRST draws_239 2 0
    = Ok (<["F" := true]> {["E" := false]}, 3) ∧
  ¬ forward_sample_spec CHILD_FIRST draws_239 0 (<["F" := true]> {["E" := false]}) 3 ∧
  ¬ consistent_draw draws_239 0 3 (<["F" := true]> {["E" := false]})
      (new_node "F" ["E"] (<[ [true] := (1#2)%Q ]> {[ [false] := (1#10)%Q ]})).
Proof.
  split; [by vm_compute|]. split; [by vm_compute|]. split; [by vm_compute|].
  split.
  - intros (_ & Hdraws & _). simpl in Hdraws. lia.
  - intros (prob_true & i & Hprob & Hi & Hval).
    vm_compute in Hprob. injection Hprob as <-.
    assert (Hcases : i = 0 ∨ i = 1 ∨ i = 2) by lia.
    destruct Hcases as [->|[->| ->]]; vm_compute in Hval; discriminate.
Qed.

(** ** Likelihood weighting on the same list *)

(** C2, on [CHILD_FIRST] with evidence [E = True].  Both passes force [E] and
    both multiply the weight by [P(E = True) = 0.25]: the weight returned is
    0.0625, where the single likelihood factor of the only evidence variable
    is 0.25. *)
Theorem lw_weight_counts_evidence_twice :
  LikelihoodWeightingSampler.for_nodes draws_239 {["E" := true]} CHILD_FIRST (∅, 1%Q, 0)
    = Ok ({["E" := true]}, (1 * (1#4))%Q, 0) ∧
  LikelihoodWeightingSampler.generate_sample CHILD_FIRST draws_239 2 {["E" := true]} 0
    = Ok (<["F" := true]> {["E" := true]}, (1 * (1#4) * (1#4))%Q, 1) ∧
  evidence_likelihood {["E" := true]} (<["F" := true]> {["E" := true]}) CHILD_FIRST
    = Ok ((1#4) * 1)%Q ∧
  ¬ ((1 * (1#4) * (1#4)) == (1#4) * 1)%Q.
Proof.
  split; [by vm_compute|]. split; [by vm_compute|]. split; [by vm_compute|].
  by vm_compute.
Qed.

(** ** What a weighted sample holds *)

Lemma size_list_to_set_le (l : list string) : size (list_to_set l : gset string) ≤ length l.
Proof.
  induction l as [|x l IH]; [by rewrite list_to_set_nil, size_empty|].
  rewrite list_to_set_cons, size_union_alt, size_singleton. simpl length.
  pose proof (subseteq_size (list_to_set l ∖ {[x]}) (list_to_set l : gset string)) as Hle.
  specialize (Hle (subseteq_difference_l _ _ _ (reflexivity _))). lia.
Qed.

Section LW_sample.
Variable nodes : list BooleanVariableNode.
Variable random : nat → Q.
Variable evidence_vals : gmap string bool.

(** A returned sample has exactly the variables of the network as keys. *)
Lemma lw_generate_sample_dom fuel pos sample weight pos' :
  LikelihoodWeightingSampler.generate_sample nodes random fuel evidence_vals pos
    = Ok (sample, weight, pos') →
  dom sample = list_to_set (names nodes).
Proof.
  intros Hrun.
  apply (lw_while_inv nodes random evidence_vals
           (λ st, dom st.1.1 ⊆ list_to_set (names nodes))) in Hrun as [Hsub Hsize].
  - simpl in *. apply set_subseteq_size_eq; [done|].
    rewrite size_dom. etrans; [apply size_list_to_set_le|].
    unfold names. by rewrite length_map.
  - intros st0 st1. apply lw_pass_names.
  - simpl. rewrite dom_empty_L. apply empty_subseteq.
Qed.

(** Every evidence variable the dictionary holds has its evidence value. *)
Lemma lw_generate_sample_evidence fuel pos sample weight pos' var val :
  LikelihoodWeightingSampler.generate_sample nodes random fuel evidence_vals pos
    = Ok (sample, weight, pos') →
  evidence_vals !! var = Some val →
  var ∈ dom sample →
  sample !! var = Some val.
Proof.
  intros Hrun Hev.
  apply (lw_while_inv nodes random evidence_vals
           (λ st, var ∈ dom st.1.1 → st.1.1 !! var = Some val)) in Hrun as [Hinv _];
    [done| |].
  - intros st0 st1 HP. revert HP.
    apply (lw_for_nodes_inv random evidence_vals
             (λ st, var ∈ dom st.1.1 → st.1.1 !! var = Some val)).
    intros node [[s w] p] [[s' w'] p'] _ HP Hbody. simpl in *.
    apply lw_for_body_Ok in Hbody
      as [(_ & -> & _)|(_ & [(val' & q & Hev' & _ & -> & _)|(q & Hev' & _ & -> & _)])];
      [done|..]; intros Hdom; destruct (decide (get_var node = var)) as [Heq|Hne].
    + rewrite Heq in *. rewrite lookup_insert_eq. congruence.
    + rewrite lookup_insert_ne by done. apply HP.
      rewrite dom_insert_L in Hdom.
      apply elem_of_union in Hdom as [Hd%elem_of_singleton|Hd]; [congruence|done].
    + rewrite Heq in *. congruence.
    + rewrite lookup_insert_ne by done. apply HP.
      rewrite dom_insert_L in Hdom.
      apply elem_of_union in Hdom as [Hd%elem_of_singleton|Hd]; [congruence|done].
  - simpl. rewrite dom_empty_L. set_solver.
Qed.

End LW_sample.



(** ** Counting and filtering samples *)

Lemma all_items_eq_agrees (m sample : gmap string bool) :
  all_items_eq m sample = true ↔ agrees m sample.
Proof. apply all_items_eq_true. Qed.

Lemma all_items_eq_decide (m sample : gmap string bool) :
  all_items_eq m sample = bool_decide (agrees m sample).
Proof.
  destruct (all_items_eq m sample) eqn:Hall; symmetry.
  - by apply bool_decide_eq_true, all_items_eq_agrees.
  - apply bool_decide_eq_false. rewrite <- all_items_eq_agrees. congruence.
Qed.

(** The loop that appends to [keeps] is a filter. *)
Lemma keeps_loop_filter (evidence_vals : gmap string bool) unfiltered keeps :
  fold_left (λ keeps sample,
               if all_items_eq evidence_vals sample then keeps ++ [sample] else keeps)
            unfiltered keeps
  = keeps ++ filter (agrees evidence_vals) unfiltered.
Proof.
  revert keeps. induction unfiltered as [|sample l IH]; intros keeps; simpl.
  - by rewrite app_nil_r.
  - rewrite IH, all_items_eq_decide. case_bool_decide.
    + rewrite filter_cons_True by done. by rewrite <- app_assoc.
    + by rewrite filter_cons_False.
Qed.

(** The loop that increments [count] counts the samples that agree. *)
Lemma count_loop_filter (query_vals : gmap string bool) samples count :
  fold_left (λ count dictionary,
               if all_items_eq query_vals dictionary then count + 1 else count)
            samples count
  = count + length (filter (agrees query_vals) samples).
Proof.
  revert count. induction samples as [|sample l IH]; intros count; simpl; [lia|].
  rewrite IH, all_items_eq_decide. case_bool_decide.
  - rewrite filter_cons_True by done. simpl. lia.
  - by rewrite filter_cons_False.
Qed.

Lemma count_matching_filter (query_vals : gmap string bool) samples :
  SimpleSampler.count_matching query_vals samples
  = length (filter (agrees query_vals) samples).
Proof. unfold SimpleSampler.count_matching. by rewrite count_loop_filter. Qed.

Lemma simple_generate_samples_length nodes random fuel n pos samples pos' :
  SimpleSampler.generate_samples nodes random fuel n pos = Ok (samples, pos') →
  length samples = n.
Proof.
  revert pos samples pos'. induction n as [|n IH]; intros pos samples pos' Hrun;
    simpl in Hrun.
  - by injection Hrun as <- <-.
  - apply bind_Ok_inv in Hrun as ([sample pos1] & _ & Hrun).
    apply bind_Ok_inv in Hrun as ([rest pos2] & Hrest & Hret).
    injection Hret as <- <-. simpl. f_equal. by eapply IH.
Qed.

Lemma rejection_generate_samples_eq nodes random fuel n evidence_vals pos :
  RejectionSampler.generate_samples nodes random fuel n evidence_vals pos =
    let* (unfiltered, pos') := SimpleSampler.generate_samples nodes random fuel n pos in
    Ok (filter (agrees evidence_vals) unfiltered, pos').
Proof.
  unfold RejectionSampler.generate_samples.
  destruct (SimpleSampler.generate_samples nodes random fuel n pos) as [[l pos']| |];
    simpl; [|done..].
  by rewrite keeps_loop_filter.
Qed.

(** C5. Every sample in the sequence that [RejectionSampler.generate_samples]
    returns agrees with every evidence entry, and the sequence is no longer
    than [n]. *)
Theorem rejection_samples_agree_with_evidence nodes random fuel n evidence_vals pos
    keeps pos' :
  RejectionSampler.generate_samples nodes random fuel n evidence_vals pos
    = Ok (keeps, pos') →
  (∀ sample, sample ∈ keeps →
     ∀ var val, evidence_vals !! var = Some val → sample !! var = Some val) ∧
  length keeps ≤ n.
Proof.
  rewrite rejection_generate_samples_eq.
  intros ([unfiltered pos1] & Hgen & Hret)%bind_Ok_inv. injection Hret as <- <-.
  split.
  - intros sample [Hagrees _]%list_elem_of_filter. exact Hagrees.
  - apply simple_generate_samples_length in Hgen as <-. apply length_filter.
Qed.

Lemma rejection_samples_agree_with_evidence_witness :
  RejectionSampler.generate_samples FEVER_NODES draws_239 4 3 {["A" := true]} 0
    = Ok ([fever_sample true true true true; fever_sample true true true true], 12) ∧
  (∀ sample,
     sample ∈ [fever_sample true true true true; fever_sample true true true true] →
     ∀ var val, ({["A" := true]} : gmap string bool) !! var = Some val →
                sample !! var = Some val) ∧
  length [fever_sample true true true true; fever_sample true true true true] ≤ 3.
Proof.
  split; [vm_compute; reflexivity|].
  apply (rejection_samples_agree_with_evidence FEVER_NODES draws_239 4 3
           {["A" := true]} 0 _ 12).
  vm_compute; reflexivity.
Defined.

(** ** Division *)

Lemma truediv_counts (count len : nat) :
  truediv (inject_Z (Z.of_nat count)) (inject_Z (Z.of_nat len)) =
    if decide (len = 0) then Raise ZeroDivisionError
    else Ok (inject_Z (Z.of_nat count) / inject_Z (Z.of_nat len))%Q.
Proof.
  unfold truediv. destruct (Qeq_bool (inject_Z (Z.of_nat len)) 0) eqn:Hz.
  - apply Qeq_bool_iff in Hz. unfold Qeq in Hz. simpl in Hz.
    rewrite decide_True; [done|lia].
  - rewrite decide_False; [done|]. intros ->. discriminate.
Qed.

Lemma truediv_zero (x y : Q) : (y == 0)%Q → truediv x y = Raise ZeroDivisionError.
Proof. intros Hy. unfold truediv. apply Qeq_bool_iff in Hy. by rewrite Hy. Qed.

Lemma truediv_nonzero (x y : Q) : ¬ (y == 0)%Q → truediv x y = Ok (x / y)%Q.
Proof.
  intros Hy. unfold truediv. destruct (Qeq_bool y 0) eqn:Hz; [|done].
  by apply Qeq_bool_iff in Hz.
Qed.

(** ** Rejection sampling *)

(** [RejectionSampler.get_prob] in terms of the forward samples. *)
Lemma rejection_get_prob_eq nodes random fuel query_vals evidence_vals n pos
    unfiltered pos' :
  SimpleSampler.generate_samples nodes random fuel n pos = Ok (unfiltered, pos') →
  RejectionSampler.get_prob nodes random fuel query_vals evidence_vals n pos =
    let surviving := filter (agrees evidence_vals) unfiltered in
    let matching := filter (agrees query_vals) surviving in
    if decide (length surviving = 0) then Raise ZeroDivisionError
    else Ok ((inject_Z (Z.of_nat (length matching))
              / inject_Z (Z.of_nat (length surviving)))%Q, pos').
Proof.
  intros Hgen. unfold RejectionSampler.get_prob.
  rewrite rejection_generate_samples_eq, Hgen. simpl.
  rewrite count_matching_filter, truediv_counts.
  by destruct (decide (length (filter (agrees evidence_vals) unfiltered) = 0)).
Qed.

(** C4. [RejectionSampler.get_prob] returns [matchCount / survivingCount],
    where the surviving samples are those of the [n] forward samples that
    agree with every evidence entry and the matching ones those of the
    surviving samples that agree with every query entry; when no sample
    survives it raises [ZeroDivisionError] and returns no number. *)
Theorem rejection_get_prob_ratio nodes random fuel query_vals evidence_vals n pos
    unfiltered pos' :
  SimpleSampler.generate_samples nodes random fuel n pos = Ok (unfiltered, pos') →
  let surviving := filter (agrees evidence_vals) unfiltered in
  let matching := filter (agrees query_vals) surviving in
  length unfiltered = n ∧
  (length surviving = 0 →
   RejectionSampler.get_prob nodes random fuel query_vals evidence_vals n pos
     = Raise ZeroDivisionError) ∧
  (length surviving ≠ 0 →
   RejectionSampler.get_prob nodes random fuel query_vals evidence_vals n pos
     = Ok ((inject_Z (Z.of_nat (length matching))
            / inject_Z (Z.of_nat (length surviving)))%Q, pos')).
Proof.
  intros Hgen surviving matching.
  split; [by eapply simple_generate_samples_length|].
  rewrite (rejection_get_prob_eq _ _ _ _ _ _ _ _ _ Hgen). cbv zeta.
  fold surviving. fold matching.
  split; intros Hlen.
  - by rewrite decide_True.
  - by rewrite decide_False.
Qed.

Lemma rejection_get_prob_ratio_witness :
  SimpleSampler.generate_samples FEVER_NODES draws_239 4 3 0
    = Ok ([fever_sample true true false true; fever_sample true true true true;
           fever_sample true true true true], 12) ∧
  let unfiltered := [fever_sample true true false true; fever_sample true true true true;
                     fever_sample true true true true] in
  let surviving := filter (agrees {["A" := true]}) unfiltered in
  let matching := filter (agrees {["T" := true]}) surviving in
  length unfiltered = 3 ∧
  (length surviving = 0 →
   RejectionSampler.get_prob FEVER_NODES draws_239 4 {["T" := true]} {["A" := true]} 3 0
     = Raise ZeroDivisionError) ∧
  (length surviving ≠ 0 →
   RejectionSampler.get_prob FEVER_NODES draws_239 4 {["T" := true]} {["A" := true]} 3 0
     = Ok ((inject_Z (Z.of_nat (length matching))
            / inject_Z (Z.of_nat (length surviving)))%Q, 12)).
Proof.
  split; [vm_compute; reflexivity|].
  apply (rejection_get_prob_ratio FEVER_NODES draws_239 4 {["T" := true]}
           {["A" := true]} 3 0 _ 12).
  vm_compute; reflexivity.
Defined.

(** ** Likelihood weighting: the weighted estimate *)

Lemma lw_generate_samples_length nodes random fuel n evidence_vals pos samples pos' :
  LikelihoodWeightingSampler.generate_samples nodes random fuel n evidence_vals pos
    = Ok (samples, pos') →
  length samples = n.
Proof.
  revert pos samples pos'. induction n as [|n IH]; intros pos samples pos' Hrun;
    simpl in Hrun.
  - by injection Hrun as <- <-.
  - apply bind_Ok_inv in Hrun as ([[sample weight] pos1] & _ & Hrun).
    apply bind_Ok_inv in Hrun as ([rest pos2] & Hrest & Hret).
    injection Hret as <- <-. simpl. f_equal. by eapply IH.
Qed.

(** The two accumulators of the loop of [get_prob] are the two sums of the
    specification. *)
Lemma accumulate_loop_sums (query_vals : gmap string bool) samples (count count2 : Q) :
  let r := fold_left (λ '(count, count2) toople,
                        let count2 := (count2 + snd toople)%Q in
                        let count := if all_items_eq query_vals (fst toople)
                                     then (count + snd toople)%Q else count in
                        (count, count2))
                     samples (count, count2) in
  (r.1 == count + weighted_matches query_vals samples)%Q ∧
  (r.2 == count2 + total_weight samples)%Q.
Proof.
  revert count count2. induction samples as [|[sample w] l IH]; intros count count2.
  - simpl. split; ring.
  - cbn [fold_left fst snd]. cbv zeta.
    destruct (IH (if all_items_eq query_vals sample then (count + w)%Q else count)
                 (count2 + w)%Q) as [IH1 IH2].
    cbv zeta in IH1, IH2. rewrite IH1, IH2. clear IH IH1 IH2.
    cbn [weighted_matches total_weight foldr fst snd].
    fold (weighted_matches query_vals l). fold (total_weight l).
    unfold match_indicator. rewrite all_items_eq_decide. case_bool_decide.
    + rewrite decide_True by done. split; ring.
    + rewrite decide_False by done. split; ring.
Qed.

Lemma accumulate_sums (query_vals : gmap string bool) samples :
  ((LikelihoodWeightingSampler.accumulate query_vals samples).1
     == weighted_matches query_vals samples)%Q ∧
  ((LikelihoodWeightingSampler.accumulate query_vals samples).2
     == total_weight samples)%Q.
Proof.
  destruct (accumulate_loop_sums query_vals samples 0%Q 0%Q) as [H1 H2].
  cbv zeta in H1, H2. unfold LikelihoodWeightingSampler.accumulate.
  rewrite H1, H2. split; ring.
Qed.

(** C3. [LikelihoodWeightingSampler.get_prob] returns the sum of the weights
    of the generated samples that agree with the query, divided by the sum of
    all weights; it raises [ZeroDivisionError] exactly when the sum of all
    weights is zero. *)
Theorem lw_get_prob_weighted_ratio nodes random fuel query_vals evidence_vals n pos
    samples pos' :
  LikelihoodWeightingSampler.generate_samples nodes random fuel n evidence_vals pos
    = Ok (samples, pos') →
  length samples = n ∧
  (LikelihoodWeightingSampler.get_prob nodes random fuel query_vals evidence_vals n pos
     = Raise ZeroDivisionError
   ↔ (total_weight samples == 0)%Q) ∧
  (¬ (total_weight samples == 0)%Q →
   ∃ r, LikelihoodWeightingSampler.get_prob nodes random fuel query_vals evidence_vals n pos
          = Ok (r, pos') ∧
        (r == weighted_matches query_vals samples / total_weight samples)%Q).
Proof.
  intros Hgen. split; [by eapply lw_generate_samples_length|].
  unfold LikelihoodWeightingSampler.get_prob. rewrite Hgen. simpl.
  destruct (accumulate_sums query_vals samples) as [Hcount Hcount2].
  destruct (LikelihoodWeightingSampler.accumulate query_vals samples) as [count count2].
  simpl in Hcount, Hcount2.
  destruct (Qeq_dec (total_weight samples) 0) as [Hzero|Hnonzero].
  - rewrite truediv_zero by (by rewrite Hcount2). simpl. split; [done|]. by intros [].
  - rewrite truediv_nonzero by (by rewrite Hcount2). simpl. split.
    + split; [discriminate|done].
    + intros _. exists (count / count2)%Q. split; [done|]. by rewrite Hcount, Hcount2.
Qed.

Lemma lw_get_prob_weighted_ratio_witness :
  LikelihoodWeightingSampler.generate_samples FEVER_NODES draws_239 4 2 {["A" := true]} 0
    = Ok ([(fever_sample true true true false, (1 * (7#8))%Q);
           (fever_sample true true true true, (1 * (7#8))%Q)], 6) ∧
  let samples := [(fever_sample true true true false, (1 * (7#8))%Q);
                  (fever_sample true true true true, (1 * (7#8))%Q)] in
  length samples = 2 ∧
  (LikelihoodWeightingSampler.get_prob FEVER_NODES draws_239 4 {["T" := true]}
     {["A" := true]} 2 0 = Raise ZeroDivisionError
   ↔ (total_weight samples == 0)%Q) ∧
  (¬ (total_weight samples == 0)%Q →
   ∃ r, LikelihoodWeightingSampler.get_prob FEVER_NODES draws_239 4 {["T" := true]}
          {["A" := true]} 2 0 = Ok (r, 6) ∧
        (r == weighted_matches {["T" := true]} samples / total_weight samples)%Q).
Proof.
  split; [vm_compute; reflexivity|].
  apply (lw_get_prob_weighted_ratio FEVER_NODES draws_239 4 {["T" := true]}
           {["A" := true]} 2 0 _ 6).
  vm_compute; reflexivity.
Defined.

(** ** Forward samples of a well-formed network *)

Lemma simple_generate_sample_dom nodes random fuel pos sample pos' :
  SimpleSampler.generate_sample nodes random fuel pos = Ok (sample, pos') →
  dom sample = list_to_set (names nodes).
Proof.
  intros Hrun. apply (lw_generate_sample_dom nodes random ∅ fuel pos sample 1%Q pos').
  by rewrite simple_generate_sample_lw, Hrun.
Qed.

Lemma simple_generate_samples_dom nodes random fuel n pos samples pos' :
  SimpleSampler.generate_samples nodes random fuel n pos = Ok (samples, pos') →
  ∀ sample, sample ∈ samples → dom sample = list_to_set (names nodes).
Proof.
  revert pos samples pos'. induction n as [|n IH]; intros pos samples pos' Hrun;
    simpl in Hrun.
  - injection Hrun as <- <-. intros sample Hin. inversion Hin.
  - apply bind_Ok_inv in Hrun as ([sample1 pos1] & Hfirst & Hrun).
    apply bind_Ok_inv in Hrun as ([rest pos2] & Hrest & Hret).
    injection Hret as <- <-. intros sample [->|Hin]%elem_of_cons.
    + by eapply simple_generate_sample_dom.
    + by eapply IH.
Qed.

Lemma simple_generate_samples_terminates nodes random fuel n pos :
  well_formed nodes → length nodes ≤ fuel →
  ∃ samples pos', SimpleSampler.generate_samples nodes random fuel n pos
                    = Ok (samples, pos').
Proof.
  intros Hwf Hfuel. revert pos. induction n as [|n IH]; intros pos; simpl; [eauto|].
  destruct (simple_generate_sample_terminates nodes random pos Hwf) as [[sample pos1] Hs].
  apply (simple_while_fuel_mono _ _ _ fuel) in Hs; [|done..].
  unfold SimpleSampler.generate_sample at 1. rewrite Hs. simpl.
  destruct (IH pos1) as (rest & pos2 & ->). simpl. eauto.
Qed.

(** No forward sample agrees with evidence on a variable it does not hold. *)
Lemma unknown_evidence_rejects_all nodes random fuel n pos unfiltered pos'
    (evidence_vals : gmap string bool) var val :
  evidence_vals !! var = Some val → var ∉ names nodes →
  SimpleSampler.generate_samples nodes random fuel n pos = Ok (unfiltered, pos') →
  filter (agrees evidence_vals) unfiltered = [].
Proof.
  intros Hev Hvar Hgen. apply elem_of_nil_inv.
  intros sample [Hagrees Hin]%list_elem_of_filter.
  apply (simple_generate_samples_dom _ _ _ _ _ _ _ Hgen) in Hin.
  apply Hvar, (elem_of_list_to_set (C := gset string)). rewrite <- Hin.
  apply elem_of_dom. exists val. by apply Hagrees.
Qed.

(** C10. When the evidence names a variable that no node carries, every
    forward sample is rejected: [RejectionSampler.generate_samples] returns
    the empty sequence, and [RejectionSampler.get_prob] with that evidence
    raises [ZeroDivisionError] for every query.  The network is well formed,
    so that the samples are produced, within [length nodes] passes each. *)
Theorem rejection_unknown_evidence_variable nodes random fuel n pos
    (evidence_vals : gmap string bool) var val :
  well_formed nodes → length nodes ≤ fuel →
  evidence_vals !! var = Some val → var ∉ names nodes →
  ∃ pos',
    RejectionSampler.generate_samples nodes random fuel n evidence_vals pos
      = Ok ([], pos') ∧
    ∀ query_vals,
      RejectionSampler.get_prob nodes random fuel query_vals evidence_vals n pos
        = Raise ZeroDivisionError.
Proof.
  intros Hwf Hfuel Hev Hvar.
  destruct (simple_generate_samples_terminates nodes random fuel n pos Hwf Hfuel)
    as (unfiltered & pos' & Hgen).
  pose proof (unknown_evidence_rejects_all _ _ _ _ _ _ _ _ _ _ Hev Hvar Hgen) as Hnil.
  exists pos'. split.
  - by rewrite rejection_generate_samples_eq, Hgen; simpl; rewrite Hnil.
  - intros query_vals.
    rewrite (rejection_get_prob_eq _ _ _ _ _ _ _ _ _ Hgen). cbv zeta.
    by rewrite Hnil.
Qed.

Lemma rejection_unknown_evidence_variable_witness :
  well_formed FEVER_NODES ∧ length FEVER_NODES ≤ 4 ∧
  ({["X" := true]} : gmap string bool) !! "X" = Some true ∧ ("X" ∉ names FEVER_NODES) ∧
  ∃ pos',
    RejectionSampler.generate_samples FEVER_NODES draws_239 4 3 {["X" := true]} 0
      = Ok ([], pos') ∧
    ∀ query_vals,
      RejectionSampler.get_prob FEVER_NODES draws_239 4 query_vals {["X" := true]} 3 0
        = Raise ZeroDivisionError.
Proof.
  assert (Hlen : length FEVER_NODES ≤ 4) by (vm_compute; lia).
  assert (Hev : ({["X" := true]} : gmap string bool) !! "X" = Some true)
    by (vm_compute; reflexivity).
  assert (Hvar : "X" ∉ names FEVER_NODES)
    by (apply (bool_decide_unpack _); vm_compute; exact I).
  split; [exact FEVER_NODES_well_formed|]. split; [exact Hlen|].
  split; [exact Hev|]. split; [exact Hvar|].
  exact (rejection_unknown_evidence_variable FEVER_NODES draws_239 4 3 0
           {["X" := true]} "X" true FEVER_NODES_well_formed Hlen Hev Hvar).
Defined.

(** ** Exceptions of the CPT lookup *)

Lemma get_prob_true_missing (self : BooleanVariableNode) (pv : list bool) :
  cpt self !! pv = None → get_prob_true self pv = Raise KeyError.
Proof. intros Hmiss. unfold get_prob_true, getitem. by rewrite Hmiss. Qed.

Lemma get_prob_false_missing (self : BooleanVariableNode) (pv : list bool) :
  cpt self !! pv = None → get_prob_false self pv = Raise KeyError.
Proof. intros Hmiss. unfold get_prob_false. by rewrite get_prob_true_missing. Qed.

Lemma bind_raises_through {A B : Type} (m : result A) (k : A → result B) :
  raises_through m (bind m k).
Proof. by intros e ->. Qed.

Section Propagation.
Variable nodes : list BooleanVariableNode.
Variable random : nat → Q.

(** A node whose parents are assigned and whose CPT has no entry for their
    values makes the step raise [KeyError]. *)
Lemma simple_for_body_missing node s pos :
  (∀ p, p ∈ get_parents node → p ∈ dom s) →
  cpt node !! map (read s) (get_parents node) = None →
  SimpleSampler.for_body random node (s, pos) = Raise KeyError.
Proof.
  intros Hpar Hmiss.
  assert (Hall : all (map (contains s) (get_parents node)) = true).
  { apply all_map_true. intros p Hp. by apply contains_true, Hpar. }
  unfold SimpleSampler.for_body, node_in. simpl negb. cbv iota zeta.
  rewrite Hall, list_comp_getitem by done. simpl.
  by rewrite get_prob_true_missing.
Qed.

Lemma lw_for_body_missing evidence_vals node s w pos :
  (∀ p, p ∈ get_parents node → p ∈ dom s) →
  cpt node !! map (read s) (get_parents node) = None →
  LikelihoodWeightingSampler.for_body random evidence_vals node (s, w, pos)
    = Raise KeyError.
Proof.
  intros Hpar Hmiss.
  assert (Hall : all (map (contains s) (get_parents node)) = true).
  { apply all_map_true. intros p Hp. by apply contains_true, Hpar. }
  rewrite lw_for_body_eq, Hall. cbv zeta.
  rewrite get_prob_false_missing, get_prob_true_missing by done.
  by destruct (evidence_vals !! get_var node) as [[]|].
Qed.

(** The pass raises what the step of one of its nodes raises. *)
Lemma simple_for_nodes_raises l1 node l2 st st1 :
  SimpleSampler.for_nodes random l1 st = Ok st1 →
  raises_through (SimpleSampler.for_body random node st1)
                 (SimpleSampler.for_nodes random (l1 ++ node :: l2) st).
Proof.
  revert st. induction l1 as [|node1 l1 IH]; intros st Hprefix e Hbody; simpl in *.
  - injection Hprefix as ->. by rewrite Hbody.
  - apply bind_Ok_inv in Hprefix as (st0 & -> & Hprefix). simpl. by apply IH.
Qed.

Lemma lw_for_nodes_raises evidence_vals l1 node l2 st st1 :
  LikelihoodWeightingSampler.for_nodes random evidence_vals l1 st = Ok st1 →
  raises_through (LikelihoodWeightingSampler.for_body random evidence_vals node st1)
                 (LikelihoodWeightingSampler.for_nodes random evidence_vals
                    (l1 ++ node :: l2) st).
Proof.
  revert st. induction l1 as [|node1 l1 IH]; intros st Hprefix e Hbody; simpl in *.
  - injection Hprefix as ->. by rewrite Hbody.
  - apply bind_Ok_inv in Hprefix as (st0 & -> & Hprefix). simpl. by apply IH.
Qed.

(** The loop raises what one of its passes raises: the first one, or a later
    one after passes that returned. *)
Lemma simple_while_raises_now fuel st :
  size st.1 < length nodes →
  raises_through (SimpleSampler.for_nodes random nodes st)
                 (SimpleSampler.while_loop nodes random (S fuel) st).
Proof.
  intros Hsize e Hpass. simpl.
  destruct (Nat.ltb_spec (size st.1) (length nodes)); [|lia]. by rewrite Hpass.
Qed.

Lemma simple_while_raises_later fuel st st1 :
  size st.1 < length nodes →
  SimpleSampler.for_nodes random nodes st = Ok st1 →
  raises_through (SimpleSampler.while_loop nodes random fuel st1)
                 (SimpleSampler.while_loop nodes random (S fuel) st).
Proof.
  intros Hsize Hpass e Hrest. simpl.
  destruct (Nat.ltb_spec (size st.1) (length nodes)); [|lia]. by rewrite Hpass.
Qed.

Lemma lw_while_raises_now evidence_vals fuel st :
  size st.1.1 < length nodes →
  raises_through (LikelihoodWeightingSampler.for_nodes random evidence_vals nodes st)
                 (LikelihoodWeightingSampler.while_loop nodes random evidence_vals
                    (S fuel) st).
Proof.
  intros Hsize e Hpass. rewrite lw_while_eq.
  destruct (Nat.ltb_spec (size st.1.1) (length nodes)); [|lia]. by rewrite Hpass.
Qed.

Lemma lw_while_raises_later evidence_vals fuel st st1 :
  size st.1.1 < length nodes →
  LikelihoodWeightingSampler.for_nodes random evidence_vals nodes st = Ok st1 →
  raises_through (LikelihoodWeightingSampler.while_loop nodes random evidence_vals fuel st1)
                 (LikelihoodWeightingSampler.while_loop nodes random evidence_vals
                    (S fuel) st).
Proof.
  intros Hsize Hpass e Hrest. rewrite lw_while_eq.
  destruct (Nat.ltb_spec (size st.1.1) (length nodes)); [|lia]. by rewrite Hpass.
Qed.

(** The list of samples raises what one of the samples raises. *)
Lemma simple_generate_samples_raises_now fuel n pos :
  raises_through (SimpleSampler.generate_sample nodes random fuel pos)
                 (SimpleSampler.generate_samples nodes random fuel (S n) pos).
Proof. intros e Hsample. simpl. by rewrite Hsample. Qed.

Lemma simple_generate_samples_raises_later fuel n pos sample pos1 :
  SimpleSampler.generate_sample nodes random fuel pos = Ok (sample, pos1) →
  raises_through (SimpleSampler.generate_samples nodes random fuel n pos1)
                 (SimpleSampler.generate_samples nodes random fuel (S n) pos).
Proof. intros Hsample e Hrest. simpl. rewrite Hsample. simpl. by rewrite Hrest. Qed.

Lemma lw_generate_samples_raises_now evidence_vals fuel n pos :
  raises_through
    (LikelihoodWeightingSampler.generate_sample nodes random fuel evidence_vals pos)
    (LikelihoodWeightingSampler.generate_samples nodes random fuel (S n) evidence_vals pos).
Proof. intros e Hsample. simpl. by rewrite Hsample. Qed.

Lemma lw_generate_samples_raises_later evidence_vals fuel n pos sample weight pos1 :
  LikelihoodWeightingSampler.generate_sample nodes random fuel evidence_vals pos
    = Ok (sample, weight, pos1) →
  raises_through
    (LikelihoodWeightingSampler.generate_samples nodes random fuel n evidence_vals pos1)
    (LikelihoodWeightingSampler.generate_samples nodes random fuel (S n) evidence_vals pos).
Proof. intros Hsample e Hrest. simpl. rewrite Hsample. simpl. by rewrite Hrest. Qed.

(** The estimators raise what the generation of their samples raises. *)
Lemma simple_get_prob_raises fuel query_vals n pos :
  raises_through (SimpleSampler.generate_samples nodes random fuel n pos)
                 (SimpleSampler.get_prob nodes random fuel query_vals n pos).
Proof. apply bind_raises_through. Qed.

Lemma rejection_get_prob_raises fuel query_vals evidence_vals n pos :
  raises_through (SimpleSampler.generate_samples nodes random fuel n pos)
                 (RejectionSampler.get_prob nodes random fuel query_vals evidence_vals n pos).
Proof.
  intros e Hgen. unfold RejectionSampler.get_prob, RejectionSampler.generate_samples.
  by rewrite Hgen.
Qed.

Lemma lw_get_prob_raises fuel query_vals evidence_vals n pos :
  raises_through
    (LikelihoodWeightingSampler.generate_samples nodes random fuel n evidence_vals pos)
    (LikelihoodWeightingSampler.get_prob nodes random fuel query_vals evidence_vals n pos).
Proof. apply bind_raises_through. Qed.
End Propagation.

Section Propagation_to_estimators.
Variable nodes : list BooleanVariableNode.
Variable random : nat → Q.

(** After [k] samples that were produced, an exception of the next one is the
    outcome of the whole list comprehension. *)
Lemma simple_generate_samples_raises_at fuel k n pos done pos_k :
  k < n →
  SimpleSampler.generate_samples nodes random fuel k pos = Ok (done, pos_k) →
  raises_through (SimpleSampler.generate_sample nodes random fuel pos_k)
                 (SimpleSampler.generate_samples nodes random fuel n pos).
Proof.
  revert n pos done. induction k as [|k IH]; intros n pos done Hlt Hdone;
    (destruct n as [|n]; [lia|]); simpl in Hdone.
  - injection Hdone as <- <-. apply simple_generate_samples_raises_now.
  - apply bind_Ok_inv in Hdone as ([sample pos1] & Hfirst & Hdone).
    apply bind_Ok_inv in Hdone as ([rest pos2] & Hrest & Hret).
    injection Hret as <- <-. intros e Hraise.
    eapply simple_generate_samples_raises_later; [done|].
    eapply IH; [|done..]. lia.
Qed.

Lemma lw_generate_samples_raises_at evidence_vals fuel k n pos done pos_k :
  k < n →
  LikelihoodWeightingSampler.generate_samples nodes random fuel k evidence_vals pos
    = Ok (done, pos_k) →
  raises_through
    (LikelihoodWeightingSampler.generate_sample nodes random fuel evidence_vals pos_k)
    (LikelihoodWeightingSampler.generate_samples nodes random fuel n evidence_vals pos).
Proof.
  revert n pos done. induction k as [|k IH]; intros n pos done Hlt Hdone;
    (destruct n as [|n]; [lia|]); simpl in Hdone.
  - injection Hdone as <- <-. apply lw_generate_samples_raises_now.
  - apply bind_Ok_inv in Hdone as ([[sample weight] pos1] & Hfirst & Hdone).
    apply bind_Ok_inv in Hdone as ([rest pos2] & Hrest & Hret).
    injection Hret as <- <-. intros e Hraise.
    eapply lw_generate_samples_raises_later; [done|].
    eapply IH; [|done..]. lia.
Qed.
End Propagation_to_estimators.

(** C8. For a tuple of parent values that the CPT of a node does not hold,
    [get_prob_true] (and with it [get_prob_false]) raises [KeyError] and
    returns no value.  The samplers look the tuple up when they resolve the
    node in a state that assigns its parents these values; the exception is
    then the outcome of that step, of the pass over the nodes, of the
    resolution loop in whichever pass it happens, of the generation of the
    samples at whichever sample it happens, and of the [get_prob] of each of
    the three estimators: no caller catches or replaces it. *)
Theorem key_error_propagates nodes random (self : BooleanVariableNode) (pv : list bool) :
  cpt self !! pv = None →
  (* the lookup *)
  get_prob_true self pv = Raise KeyError ∧
  get_prob_false self pv = Raise KeyError ∧
  (* the step that resolves the node *)
  (∀ s, (∀ p, p ∈ get_parents self → p ∈ dom s) → map (read s) (get_parents self) = pv →
        (∀ pos, SimpleSampler.for_body random self (s, pos) = Raise KeyError) ∧
        (∀ evidence_vals w pos,
            LikelihoodWeightingSampler.for_body random evidence_vals self (s, w, pos)
              = Raise KeyError)) ∧
  (* the pass *)
  (∀ l1 node l2 st st1,
      SimpleSampler.for_nodes random l1 st = Ok st1 →
      raises_through (SimpleSampler.for_body random node st1)
                     (SimpleSampler.for_nodes random (l1 ++ node :: l2) st)) ∧
  (∀ evidence_vals l1 node l2 st st1,
      LikelihoodWeightingSampler.for_nodes random evidence_vals l1 st = Ok st1 →
      raises_through (LikelihoodWeightingSampler.for_body random evidence_vals node st1)
                     (LikelihoodWeightingSampler.for_nodes random evidence_vals
                        (l1 ++ node :: l2) st)) ∧
  (* the resolution loop *)
  (∀ fuel st, size st.1 < length nodes →
      raises_through (SimpleSampler.for_nodes random nodes st)
                     (SimpleSampler.while_loop nodes random (S fuel) st) ∧
      ∀ st1, SimpleSampler.for_nodes random nodes st = Ok st1 →
             raises_through (SimpleSampler.while_loop nodes random fuel st1)
                            (SimpleSampler.while_loop nodes random (S fuel) st)) ∧
  (∀ evidence_vals fuel st, size st.1.1 < length nodes →
      raises_through
        (LikelihoodWeightingSampler.for_nodes random evidence_vals nodes st)
        (LikelihoodWeightingSampler.while_loop nodes random evidence_vals (S fuel) st) ∧
      ∀ st1, LikelihoodWeightingSampler.for_nodes random evidence_vals nodes st = Ok st1 →
             raises_through
               (LikelihoodWeightingSampler.while_loop nodes random evidence_vals fuel st1)
               (LikelihoodWeightingSampler.while_loop nodes random evidence_vals
                  (S fuel) st)) ∧
  (* the estimators, at whichever sample the exception is raised *)
  (∀ fuel k n pos done pos_k query_vals evidence_vals,
      k < n →
      SimpleSampler.generate_samples nodes random fuel k pos = Ok (done, pos_k) →
      raises_through (SimpleSampler.generate_sample nodes random fuel pos_k)
                     (SimpleSampler.get_prob nodes random fuel query_vals n pos) ∧
      raises_through (SimpleSampler.generate_sample nodes random fuel pos_k)
                     (RejectionSampler.get_prob nodes random fuel query_vals
                        evidence_vals n pos)) ∧
  (∀ fuel k n pos done pos_k query_vals evidence_vals,
      k < n →
      LikelihoodWeightingSampler.generate_samples nodes random fuel k evidence_vals pos
        = Ok (done, pos_k) →
      raises_through
        (LikelihoodWeightingSampler.generate_sample nodes random fuel evidence_vals pos_k)
        (LikelihoodWeightingSampler.get_prob nodes random fuel query_vals
           evidence_vals n pos)).
Proof.
  intros Hmiss.
  split; [by apply get_prob_true_missing|].
  split; [by apply get_prob_false_missing|].
  split.
  { intros s Hpar <-. split.
    - intros pos. by apply simple_for_body_missing.
    - intros evidence_vals w pos. by apply lw_for_body_missing. }
  split; [apply simple_for_nodes_raises|].
  split; [apply lw_for_nodes_raises|].
  split.
  { intros fuel st Hsize. split; [by apply simple_while_raises_now|].
    intros st1. by apply simple_while_raises_later. }
  split.
  { intros evidence_vals fuel st Hsize. split; [by apply lw_while_raises_now|].
    intros st1. by apply lw_while_raises_later. }
  split.
  - intros fuel k n pos done pos_k query_vals evidence_vals Hlt Hdone.
    split; intros e Hraise.
    + apply simple_get_prob_raises. by eapply simple_generate_samples_raises_at.
    + apply rejection_get_prob_raises. by eapply simple_generate_samples_raises_at.
  - intros fuel k n pos done pos_k query_vals evidence_vals Hlt Hdone e Hraise.
    apply lw_get_prob_raises. by eapply lw_generate_samples_raises_at.
Qed.

Lemma key_error_propagates_witness :
  cpt (new_node "F" ["E"] {[ [true] := (1#2)%Q ]}) !! [false] = None ∧
  get_prob_true (new_node "F" ["E"] {[ [true] := (1#2)%Q ]}) [false] = Raise KeyError ∧
  SimpleSampler.get_prob INCOMPLETE draws_9 2 {["F" := true]} 3 0 = Raise KeyError ∧
  RejectionSampler.get_prob INCOMPLETE draws_9 2 {["F" := true]} {["E" := false]} 3 0
    = Raise KeyError ∧
  LikelihoodWeightingSampler.get_prob INCOMPLETE draws_9 2 {["F" := true]}
    {["E" := false]} 3 0 = Raise KeyError.
Proof.
  assert (Hmiss : cpt (new_node "F" ["E"] {[ [true] := (1#2)%Q ]}) !! [false] = None)
    by (vm_compute; reflexivity).
  destruct (key_error_propagates INCOMPLETE draws_9 _ _ Hmiss)
    as (Htrue & _ & Hstep & Hpass & Hpass_lw & Hloop & Hloop_lw & Hest & Hest_lw).
  split; [exact Hmiss|]. split; [exact Htrue|].
  assert (Hpar : ∀ p, p ∈ get_parents (new_node "F" ["E"] {[ [true] := (1#2)%Q ]}) →
                      p ∈ dom ({["E" := false]} : gmap string bool)).
  { intros p ->%list_elem_of_singleton. apply elem_of_dom. by exists false. }
  destruct (Hstep {["E" := false]} Hpar eq_refl) as [Hbody Hbody_lw].
  assert (Hsize0 : size (∅ : gmap string bool) < length INCOMPLETE) by (vm_compute; lia).
  assert (Hsize1 : size ({["E" := false]} : gmap string bool) < length INCOMPLETE)
    by (vm_compute; lia).
  split; [|split].
  - (* SimpleSampler *)
    destruct (Hest 2 0 3 0 [] 0 {["F" := true]} ∅ ltac:(lia) eq_refl) as [Hsimple _].
    apply Hsimple.
    apply (proj2 (Hloop 1 (∅, 0) Hsize0) ({["E" := false]}, 1));
      [vm_compute; reflexivity|].
    apply (proj1 (Hloop 0 ({["E" := false]}, 1) Hsize1)).
    apply (Hpass [] _ [new_node "E" [] {[ [] := (1#4)%Q ]}] _ _ eq_refl).
    apply Hbody.
  - (* RejectionSampler *)
    destruct (Hest 2 0 3 0 [] 0 {["F" := true]} {["E" := false]} ltac:(lia) eq_refl)
      as [_ Hrejection].
    apply Hrejection.
    apply (proj2 (Hloop 1 (∅, 0) Hsize0) ({["E" := false]}, 1));
      [vm_compute; reflexivity|].
    apply (proj1 (Hloop 0 ({["E" := false]}, 1) Hsize1)).
    apply (Hpass [] _ [new_node "E" [] {[ [] := (1#4)%Q ]}] _ _ eq_refl).
    apply Hbody.
  - (* LikelihoodWeightingSampler *)
    apply (Hest_lw 2 0 3 0 [] 0 {["F" := true]} {["E" := false]} ltac:(lia) eq_refl).
    apply (proj2 (Hloop_lw {["E" := false]} 1 (∅, 1%Q, 0) Hsize0)
             ({["E" := false]}, (1 * (1 - (1#4)))%Q, 0));
      [vm_compute; reflexivity|].
    apply (proj1 (Hloop_lw {["E" := false]} 0
                    ({["E" := false]}, (1 * (1 - (1#4)))%Q, 0) Hsize1)).
    apply (Hpass_lw {["E" := false]} [] _ [new_node "E" [] {[ [] := (1#4)%Q ]}] _ _ eq_refl).
    apply Hbody_lw.
Defined.

(** ** Node lists in dependency order

    When every node is listed after its parents, the first pass resolves
    every node and the loop ends before any node is resolved a second time:
    on such lists every node is drawn once and every evidence variable is
    weighed once. *)

Lemma consistent_draw_widen random pos0 pos pos' sample node :
  pos0 ≤ pos →
  consistent_draw random pos pos' sample node →
  consistent_draw random pos0 pos' sample node.
Proof.
  intros Hle (prob & i & Hprob & Hi & Hval). exists prob, i. split; [done|].
  split; [lia|done].
Qed.

Section Ordered_pass.
Variable random : nat → Q.
Variable evidence_vals : gmap string bool.

(** The pass over the rest [l2] of an ordered list, from a state that holds
    exactly the variables of the nodes [l1] before it. *)
Lemma lw_ordered_pass l2 : ∀ l1 s1 w1 p1 s' w' p',
  NoDup (names (l1 ++ l2)) →
  (∀ l2a node l2b, l2 = l2a ++ node :: l2b →
                   ∀ p, p ∈ get_parents node → p ∈ names (l1 ++ l2a)) →
  dom s1 = list_to_set (names l1) →
  LikelihoodWeightingSampler.for_nodes random evidence_vals l2 (s1, w1, p1)
    = Ok (s', w', p') →
  dom s' = list_to_set (names (l1 ++ l2)) ∧
  (∀ k, k ∈ names l1 → s' !! k = s1 !! k) ∧
  p' = p1 + draws_needed evidence_vals l2 ∧
  (∀ node, node ∈ l2 →
     match evidence_vals !! get_var node with
     | Some val => s' !! get_var node = Some val
     | None => consistent_draw random p1 p' s' node
     end) ∧
  ∃ L, evidence_likelihood evidence_vals s' l2 = Ok L ∧ (w' == w1 * L)%Q.
Proof.
  induction l2 as [|node l2 IH]; intros l1 s1 w1 p1 s' w' p' Hnodup Hord Hdom Hrun.
  - simpl in Hrun. injection Hrun as <- <- <-. rewrite app_nil_r.
    split; [done|]. split; [done|]. split; [unfold draws_needed; simpl; lia|].
    split; [intros node Hin; inversion Hin|]. exists 1%Q. split; [done|ring].
  - simpl in Hrun. apply bind_Ok_inv in Hrun as ([[s2 w2] p2] & Hbody & Hrest).
    assert (Hpar : ∀ p, p ∈ get_parents node → p ∈ names l1).
    { intros p Hp. specialize (Hord [] node l2 eq_refl p Hp). by rewrite app_nil_r in Hord. }
    assert (Hfresh : get_var node ∉ names l1).
    { unfold names in Hnodup. rewrite fmap_app, fmap_cons in Hnodup.
      apply NoDup_app in Hnodup as (_ & Hdisj & _). intros Hin.
      apply (Hdisj _ Hin). left. }
    assert (Hready : all (map (contains s1) (get_parents node)) = true).
    { apply all_map_true. intros p Hp. apply contains_true. rewrite Hdom.
      by apply elem_of_list_to_set, Hpar. }
    assert (Hnames : names ((l1 ++ [node]) ++ l2) = names (l1 ++ node :: l2))
      by (by rewrite <- app_assoc).
    assert (Hstep : ∃ v, s2 = <[get_var node := v]> s1 ∧ p1 ≤ p2).
    { apply lw_for_body_Ok in Hbody
        as [(Hno & _)|(_ & [(val & q & _ & _ & -> & _ & ->)|(q & _ & _ & -> & _ & ->)])];
        [congruence|eauto..]. }
    destruct Hstep as (v & Hs2 & Hp12).
    destruct (IH (l1 ++ [node]) s2 w2 p2 s' w' p') as (Hdom' & Hkeep & Hpos & Hnodes & L & HL & Hw);
      [by rewrite Hnames| | |done|].
    { intros l2a node' l2b -> p Hp. rewrite <- app_assoc. simpl.
      by apply (Hord (node :: l2a) node' l2b). }
    { rewrite Hs2, dom_insert_L, Hdom. unfold names. rewrite fmap_app, list_to_set_app_L.
      simpl. rewrite union_empty_r_L. apply (comm_L (∪)). }
    assert (Hold : ∀ k, k ∈ names l1 → s' !! k = s1 !! k).
    { intros k Hk. rewrite Hkeep.
      - rewrite Hs2, lookup_insert_ne; [done|]. by intros <-.
      - unfold names. rewrite fmap_app. apply elem_of_app. by left. }
    assert (Hvar : s' !! get_var node = Some v).
    { rewrite Hkeep.
      - by rewrite Hs2, lookup_insert_eq.
      - unfold names. rewrite fmap_app. apply elem_of_app. right. simpl. left. }
    assert (Hpv : map (read s') (get_parents node) = map (read s1) (get_parents node)).
    { apply list_fmap_ext. intros i p Hp%list_elem_of_lookup_2.
      unfold read. by rewrite Hold by auto. }
    rewrite Hnames in Hdom'. split; [done|]. split; [done|].
    apply lw_for_body_Ok in Hbody
      as [(Hno & _)|(_ & [(val & q & Hev & Hq & Hs2' & -> & ->)|(q & Hev & Hq & Hs2' & -> & ->)])];
      [congruence|..].
    + (* an evidence variable *)
      assert (v = val) as ->.
      { rewrite Hs2 in Hs2'. apply (f_equal (λ m, m !! get_var node)) in Hs2'.
        rewrite !lookup_insert_eq in Hs2'. congruence. }
      split.
      { rewrite Hpos. unfold draws_needed. rewrite filter_cons_False; [done|].
        rewrite Hev. by intros [=]. }
      split.
      { intros node' [->|Hin]%elem_of_cons; [by rewrite Hev|].
        specialize (Hnodes node' Hin).
        by destruct (evidence_vals !! get_var node'). }
      exists (q * L)%Q. split.
      * simpl. rewrite Hev. unfold likelihood_factor. cbv zeta. rewrite Hpv, Hq. simpl.
        by rewrite HL.
      * rewrite Hw. ring.
    + (* a variable that is drawn *)
      assert (v = Qlt_bool (random p1) q) as ->.
      { rewrite Hs2 in Hs2'. apply (f_equal (λ m, m !! get_var node)) in Hs2'.
        rewrite !lookup_insert_eq in Hs2'. congruence. }
      split.
      { rewrite Hpos. unfold draws_needed. rewrite filter_cons_True by done. simpl. lia. }
      split.
      { intros node' [->|Hin]%elem_of_cons.
        - rewrite Hev. exists q, p1. rewrite Hpv. split; [done|]. split; [lia|done].
        - specialize (Hnodes node' Hin).
          destruct (evidence_vals !! get_var node'); [done|].
          eapply consistent_draw_widen; [|done]. lia. }
      exists L. split; [|done]. simpl. by rewrite Hev.
Qed.
End Ordered_pass.

Section Ordered_sample.
Variable nodes : list BooleanVariableNode.
Variable random : nat → Q.
Hypothesis Hnodup : NoDup (names nodes).
Hypothesis Hord : dependency_ordered nodes.

(** On an ordered list the sample is the result of a single pass. *)
Lemma lw_ordered_single_pass evidence_vals fuel pos st :
  LikelihoodWeightingSampler.generate_sample nodes random fuel evidence_vals pos = Ok st →
  LikelihoodWeightingSampler.for_nodes random evidence_vals nodes (∅, 1%Q, pos) = Ok st.
Proof.
  unfold LikelihoodWeightingSampler.generate_sample. rewrite lw_while_eq. simpl.
  rewrite map_size_empty.
  destruct (Nat.ltb_spec 0 (length nodes)) as [Hlt|Hge].
  - destruct fuel as [|fuel]; [done|].
    intros ([[s1 w1] p1] & Hpass & Hrest)%bind_Ok_inv. rewrite Hpass.
    destruct (lw_ordered_pass random evidence_vals nodes [] ∅ 1%Q pos s1 w1 p1)
      as (Hdom & _); [done| |by rewrite dom_empty_L|done|].
    { intros l2a node l2b. apply Hord. }
    rewrite lw_while_eq in Hrest. simpl in Hrest, Hdom.
    rewrite <- (size_dom (D := gset string)), Hdom, size_list_to_set in Hrest by done.
    unfold names in Hrest. rewrite length_map, Nat.ltb_irrefl in Hrest. done.
  - destruct nodes; [done|simpl in Hge; lia].
Qed.

(** On an ordered list the weight is the product of one likelihood factor per
    evidence variable, at the parent values of the sample. *)
Lemma lw_ordered_weight evidence_vals fuel pos sample weight pos' :
  LikelihoodWeightingSampler.generate_sample nodes random fuel evidence_vals pos
    = Ok (sample, weight, pos') →
  pos' = pos + draws_needed evidence_vals nodes ∧
  ∃ L, evidence_likelihood evidence_vals sample nodes = Ok L ∧ (weight == L)%Q.
Proof.
  intros Hpass%lw_ordered_single_pass.
  destruct (lw_ordered_pass random evidence_vals nodes [] ∅ 1%Q pos sample weight pos')
    as (_ & _ & Hpos & _ & L & HL & Hw); [done| |by rewrite dom_empty_L|done|].
  { intros l2a node l2b. apply Hord. }
  split; [done|]. exists L. split; [done|]. rewrite Hw. ring.
Qed.

Lemma draws_needed_empty (l : list BooleanVariableNode) : draws_needed ∅ l = length l.
Proof.
  unfold draws_needed. induction l as [|node l IH]; [done|].
  rewrite filter_cons_True by apply lookup_empty. simpl. by rewrite IH.
Qed.

(** On an ordered list every node is assigned by one draw, against the CPT
    probability at the parent values of the finished sample. *)
Lemma simple_ordered_forward_sample fuel pos sample pos' :
  SimpleSampler.generate_sample nodes random fuel pos = Ok (sample, pos') →
  forward_sample_spec nodes random pos sample pos'.
Proof.
  intros Hrun.
  assert (Hlw : LikelihoodWeightingSampler.generate_sample nodes random fuel ∅ pos
                = Ok (sample, 1%Q, pos')).
  { by rewrite simple_generate_sample_lw, Hrun. }
  apply lw_ordered_single_pass in Hlw.
  destruct (lw_ordered_pass random ∅ nodes [] ∅ 1%Q pos sample 1%Q pos')
    as (Hdom & _ & Hpos & Hnodes & _); [done| |by rewrite dom_empty_L|done|].
  { intros l2a node l2b. apply Hord. }
  rewrite draws_needed_empty in Hpos. simpl in Hdom. split; [|split; [done|]].
  - intros node Hin. apply elem_of_dom. rewrite Hdom.
    apply elem_of_list_to_set. by apply list_elem_of_fmap_2.
  - intros node Hin. specialize (Hnodes node Hin). by rewrite lookup_empty in Hnodes.
Qed.
End Ordered_sample.

Lemma FEVER_NODES_ordered : dependency_ordered FEVER_NODES.
Proof.
  intros l1 node l2 Heq p Hp.
  unfold FEVER_NODES in Heq.
  repeat match goal with
         | H : _ = ?l ++ _ :: _ |- _ => destruct l; simplify_eq/=
         | H : ?l ++ _ :: _ = _ |- _ => destruct l; simplify_eq/=
         end;
    try (by inversion Hp);
    apply list_elem_of_singleton in Hp as ->; by apply (bool_decide_unpack _).
Qed.

(** ** Lists with a repeated name

    The names of a [Network] are unique.  On a list that repeats a name the
    dictionary never gets as many keys as there are nodes, and the loop does
    not return. *)

Lemma size_list_to_set_NoDup (l : list string) :
  size (list_to_set l : gset string) = length l → NoDup l.
Proof.
  induction l as [|x l IH]; [constructor|].
  rewrite list_to_set_cons. simpl length. intros Hsize.
  pose proof (size_list_to_set_le l) as Hle.
  destruct (decide (x ∈ l)) as [Hin|Hnotin].
  - assert (Heq : ({[x]} ∪ list_to_set l : gset string) = list_to_set l).
    { apply subseteq_union_1_L, singleton_subseteq_l. by apply elem_of_list_to_set. }
    rewrite Heq in Hsize. lia.
  - constructor; [done|]. apply IH.
    rewrite size_union, size_singleton in Hsize; [lia|].
    apply disjoint_singleton_l. by rewrite elem_of_list_to_set.
Qed.

Lemma lw_repeated_name_no_sample nodes random fuel evidence_vals pos st :
  ¬ NoDup (names nodes) →
  LikelihoodWeightingSampler.generate_sample nodes random fuel evidence_vals pos ≠ Ok st.
Proof.
  intros Hdup Hrun. destruct st as [[sample weight] pos']. apply Hdup.
  pose proof (lw_generate_sample_dom _ _ _ _ _ _ _ _ Hrun) as Hdom.
  apply (lw_while_inv nodes random evidence_vals (λ _, True)) in Hrun as [_ Hsize];
    [|done..].
  simpl in Hsize. apply size_list_to_set_NoDup.
  pose proof (size_list_to_set_le (names nodes)) as Hle.
  rewrite <- Hdom, size_dom in *. unfold names in *. rewrite length_map in *. lia.
Qed.

Lemma simple_repeated_name_no_sample nodes random fuel pos st :
  ¬ NoDup (names nodes) →
  SimpleSampler.generate_sample nodes random fuel pos ≠ Ok st.
Proof.
  intros Hdup Hrun.
  apply (lw_repeated_name_no_sample nodes random fuel ∅ pos (with_weight 1%Q st) Hdup).
  by rewrite simple_generate_sample_lw, Hrun.
Qed.

(** * Further properties of the samplers *)

(** ** Ratios of counts *)

Lemma ratio_bounds (a b : nat) :
  a ≤ b → b ≠ 0 →
  (0 <= inject_Z (Z.of_nat a) / inject_Z (Z.of_nat b))%Q ∧
  (inject_Z (Z.of_nat a) / inject_Z (Z.of_nat b) <= 1)%Q.
Proof.
  intros Hle Hb.
  assert (Hpos : (0 < inject_Z (Z.of_nat b))%Q).
  { unfold Qlt. simpl. lia. }
  split.
  - apply Qle_shift_div_l; [done|]. rewrite Qmult_0_l. unfold Qle. simpl. lia.
  - apply Qle_shift_div_r; [done|]. rewrite Qmult_1_l. rewrite <- Zle_Qle. lia.
Qed.

Lemma agrees_empty (sample : gmap string bool) : agrees ∅ sample.
Proof. apply map_Forall_empty. Qed.

Lemma filter_agrees_empty (l : list (gmap string bool)) : filter (agrees ∅) l = l.
Proof.
  induction l as [|sample l IH]; [done|].
  rewrite filter_cons_True by apply agrees_empty. by rewrite IH.
Qed.

(** No dictionary agrees with a mapping on a variable it does not hold. *)
Lemma filter_agrees_unknown (m : gmap string bool) (keys : gset string) var val
    (l : list (gmap string bool)) :
  m !! var = Some val → var ∉ keys →
  (∀ sample, sample ∈ l → dom sample = keys) →
  filter (agrees m) l = [].
Proof.
  intros Hm Hvar Hdom. apply elem_of_nil_inv.
  intros sample [Hagrees Hin]%list_elem_of_filter.
  apply Hvar. rewrite <- (Hdom sample Hin). apply elem_of_dom. exists val. by apply Hagrees.
Qed.

(** ** SimpleSampler.get_prob *)

Lemma simple_get_prob_eq nodes random fuel query_vals n pos samples pos' :
  SimpleSampler.generate_samples nodes random fuel n pos = Ok (samples, pos') →
  SimpleSampler.get_prob nodes random fuel query_vals n pos =
    if decide (n = 0) then Raise ZeroDivisionError
    else Ok ((inject_Z (Z.of_nat (length (filter (agrees query_vals) samples)))
              / inject_Z (Z.of_nat n))%Q, pos').
Proof.
  intros Hgen. unfold SimpleSampler.get_prob. rewrite Hgen. simpl.
  rewrite count_matching_filter, truediv_counts. by destruct (decide (n = 0)).
Qed.

(** With [num_samples = 0] no sample is generated and each of the three
    [get_prob] methods divides by zero: [count / num_samples],
    [count / len(samples)] and [count / count2] all raise
    [ZeroDivisionError], whatever the network, the query and the evidence. *)
Theorem get_prob_without_samples nodes random fuel query_vals evidence_vals pos :
  SimpleSampler.get_prob nodes random fuel query_vals 0 pos = Raise ZeroDivisionError ∧
  RejectionSampler.get_prob nodes random fuel query_vals evidence_vals 0 pos
    = Raise ZeroDivisionError ∧
  LikelihoodWeightingSampler.get_prob nodes random fuel query_vals evidence_vals 0 pos
    = Raise ZeroDivisionError.
Proof. done. Qed.

(** [SimpleSampler.get_prob] with [num_samples > 0] returns the fraction of
    the generated samples that agree with every query entry, a number between
    0 and 1; the evidence plays no part in it. *)
Theorem simple_get_prob_ratio nodes random fuel query_vals n pos samples pos' :
  SimpleSampler.generate_samples nodes random fuel n pos = Ok (samples, pos') →
  n ≠ 0 →
  let r := (inject_Z (Z.of_nat (length (filter (agrees query_vals) samples)))
            / inject_Z (Z.of_nat n))%Q in
  SimpleSampler.get_prob nodes random fuel query_vals n pos = Ok (r, pos') ∧
  (0 <= r)%Q ∧ (r <= 1)%Q.
Proof.
  intros Hgen Hn r. split.
  - rewrite (simple_get_prob_eq _ _ _ _ _ _ _ _ Hgen). by rewrite decide_False.
  - apply ratio_bounds; [|done].
    rewrite <- (simple_generate_samples_length _ _ _ _ _ _ _ Hgen). apply length_filter.
Qed.

Lemma simple_get_prob_ratio_witness :
  SimpleSampler.generate_samples FEVER_NODES draws_239 4 3 0
    = Ok ([fever_sample true true false true; fever_sample true true true true;
           fever_sample true true true true], 12) ∧
  3 ≠ 0 ∧
  let r := (inject_Z (Z.of_nat (length (filter (agrees {["A" := true]})
              [fever_sample true true false true; fever_sample true true true true;
               fever_sample true true true true])))
            / inject_Z (Z.of_nat 3))%Q in
  SimpleSampler.get_prob FEVER_NODES draws_239 4 {["A" := true]} 3 0 = Ok (r, 12) ∧
  (0 <= r)%Q ∧ (r <= 1)%Q.
Proof.
  split; [vm_compute; reflexivity|]. split; [lia|].
  apply (simple_get_prob_ratio FEVER_NODES draws_239 4 {["A" := true]} 3 0 _ 12);
    [vm_compute; reflexivity|lia].
Defined.

(** ** Rejection sampling without evidence *)

Lemma rejection_generate_samples_no_evidence nodes random fuel n pos :
  RejectionSampler.generate_samples nodes random fuel n ∅ pos
    = SimpleSampler.generate_samples nodes random fuel n pos.
Proof.
  rewrite rejection_generate_samples_eq.
  destruct (SimpleSampler.generate_samples nodes random fuel n pos)
    as [[samples pos']| |]; simpl; [|done..].
  by rewrite filter_agrees_empty.
Qed.

(** With empty evidence nothing is rejected: [RejectionSampler] returns the
    forward samples themselves, and its [get_prob] is [SimpleSampler.get_prob],
    exceptions included. *)
Theorem rejection_without_evidence nodes random fuel query_vals n pos :
  RejectionSampler.generate_samples nodes random fuel n ∅ pos
    = SimpleSampler.generate_samples nodes random fuel n pos ∧
  RejectionSampler.get_prob nodes random fuel query_vals ∅ n pos
    = SimpleSampler.get_prob nodes random fuel query_vals n pos.
Proof.
  split; [apply rejection_generate_samples_no_evidence|].
  unfold RejectionSampler.get_prob, SimpleSampler.get_prob.
  rewrite rejection_generate_samples_no_evidence.
  destruct (SimpleSampler.generate_samples nodes random fuel n pos)
    as [[samples pos']| |] eqn:Hsimple; simpl; [|done..].
  by rewrite (simple_generate_samples_length _ _ _ _ _ _ _ Hsimple).
Qed.

(** Whenever [RejectionSampler.get_prob] returns a number, it lies between 0
    and 1. *)
Theorem rejection_get_prob_bounds nodes random fuel query_vals evidence_vals n pos r pos' :
  RejectionSampler.get_prob nodes random fuel query_vals evidence_vals n pos
    = Ok (r, pos') →
  (0 <= r)%Q ∧ (r <= 1)%Q.
Proof.
  intros Hprob.
  destruct (SimpleSampler.generate_samples nodes random fuel n pos)
    as [[unfiltered pos1]| |] eqn:Hgen.
  - rewrite (rejection_get_prob_eq _ _ _ _ _ _ _ _ _ Hgen) in Hprob. cbv zeta in Hprob.
    destruct (decide (length (filter (agrees evidence_vals) unfiltered) = 0));
      [done|].
    injection Hprob as <- <-. apply ratio_bounds; [apply length_filter|done].
  - unfold RejectionSampler.get_prob, RejectionSampler.generate_samples in Hprob.
    by rewrite Hgen in Hprob.
  - unfold RejectionSampler.get_prob, RejectionSampler.generate_samples in Hprob.
    by rewrite Hgen in Hprob.
Qed.

Lemma rejection_get_prob_bounds_witness :
  RejectionSampler.get_prob FEVER_NODES draws_239 4 {["T" := true]} {["A" := true]} 3 0
    = Ok ((inject_Z 2 / inject_Z 2)%Q, 12) ∧
  (0 <= inject_Z 2 / inject_Z 2)%Q ∧ (inject_Z 2 / inject_Z 2 <= 1)%Q.
Proof.
  split; [vm_compute; reflexivity|].
  apply (rejection_get_prob_bounds FEVER_NODES draws_239 4 {["T" := true]}
           {["A" := true]} 3 0 _ 12).
  vm_compute; reflexivity.
Defined.

(** ** Sums of weights *)

Lemma total_weight_nonneg (samples : list (gmap string bool * Q)) :
  (∀ sw, sw ∈ samples → (0 <= sw.2)%Q) → (0 <= total_weight samples)%Q.
Proof.
  induction samples as [|[s w] l IH]; intros Hw; simpl; [apply Qle_refl|].
  rewrite <- (Qplus_0_l 0). apply Qplus_le_compat.
  - apply (Hw (s, w)). left.
  - apply IH. intros sw Hin. apply Hw. by right.
Qed.

Lemma weighted_matches_bounds query_vals (samples : list (gmap string bool * Q)) :
  (∀ sw, sw ∈ samples → (0 <= sw.2)%Q) →
  (0 <= weighted_matches query_vals samples)%Q ∧
  (weighted_matches query_vals samples <= total_weight samples)%Q.
Proof.
  induction samples as [|[s w] l IH]; intros Hw; simpl; [split; apply Qle_refl|].
  assert (Hw0 : (0 <= w)%Q) by (apply (Hw (s, w)); left).
  destruct IH as [IH0 IH1]; [intros sw Hin; apply Hw; by right|].
  unfold match_indicator. destruct (decide (agrees query_vals s)); split.
  - rewrite <- (Qplus_0_l 0). apply Qplus_le_compat; [|done]. by rewrite Qmult_1_r.
  - apply Qplus_le_compat; [|done]. rewrite Qmult_1_r. apply Qle_refl.
  - rewrite Qmult_0_r, Qplus_0_l. done.
  - rewrite Qmult_0_r. apply Qplus_le_compat; done.
Qed.

Lemma weighted_matches_empty_query (samples : list (gmap string bool * Q)) :
  (weighted_matches ∅ samples == total_weight samples)%Q.
Proof.
  induction samples as [|[s w] l IH]; simpl; [done|].
  unfold match_indicator. rewrite decide_True by apply agrees_empty.
  rewrite IH. ring.
Qed.

Lemma weighted_matches_none query_vals (samples : list (gmap string bool * Q)) :
  (∀ sw, sw ∈ samples → ¬ agrees query_vals sw.1) →
  (weighted_matches query_vals samples == 0)%Q.
Proof.
  induction samples as [|[s w] l IH]; intros Hno; simpl; [done|].
  unfold match_indicator. rewrite decide_False by (apply (Hno (s, w)); left).
  rewrite IH; [ring|]. intros sw Hin. apply Hno. by right.
Qed.

Lemma sums_of_unit_weights query_vals (samples : list (gmap string bool)) :
  (total_weight (map (λ s, (s, 1%Q)) samples)
     == inject_Z (Z.of_nat (length samples)))%Q ∧
  (weighted_matches query_vals (map (λ s, (s, 1%Q)) samples)
     == inject_Z (Z.of_nat (length (filter (agrees query_vals) samples))))%Q.
Proof.
  induction samples as [|s l [IH1 IH2]]; [done|].
  cbn [map total_weight weighted_matches foldr fst snd length].
  fold (total_weight (map (λ s, (s, 1%Q)) l)).
  fold (weighted_matches query_vals (map (λ s, (s, 1%Q)) l)).
  rewrite IH1, IH2. unfold match_indicator. split.
  - rewrite Nat2Z.inj_succ, <- Z.add_1_l, inject_Z_plus. done.
  - destruct (decide (agrees query_vals s)).
    + rewrite filter_cons_True by done. simpl length.
      rewrite Nat2Z.inj_succ, <- Z.add_1_l, inject_Z_plus. ring.
    + rewrite filter_cons_False by done. ring.
Qed.

(** ** Weighted samples *)

Lemma lw_generate_samples_each nodes random fuel n evidence_vals pos samples pos'
    (P : gmap string bool * Q → Prop) :
  (∀ pos0 sample weight pos1,
      LikelihoodWeightingSampler.generate_sample nodes random fuel evidence_vals pos0
        = Ok (sample, weight, pos1) → P (sample, weight)) →
  LikelihoodWeightingSampler.generate_samples nodes random fuel n evidence_vals pos
    = Ok (samples, pos') →
  ∀ sw, sw ∈ samples → P sw.
Proof.
  intros Hone. revert pos samples pos'.
  induction n as [|n IH]; intros pos samples pos' Hrun; simpl in Hrun.
  - injection Hrun as <- <-. intros sw Hin. inversion Hin.
  - apply bind_Ok_inv in Hrun as ([[sample weight] pos1] & Hfirst & Hrun).
    apply bind_Ok_inv in Hrun as ([rest pos2] & Hrest & Hret).
    injection Hret as <- <-. intros sw [->|Hin]%elem_of_cons.
    + by eapply Hone.
    + by eapply IH.
Qed.

Lemma lw_generate_sample_weight_nonneg nodes random fuel evidence_vals pos
    sample weight pos' :
  (∀ node pv p, node ∈ nodes → cpt node !! pv = Some p → (0 <= p)%Q ∧ (p <= 1)%Q) →
  LikelihoodWeightingSampler.generate_sample nodes random fuel evidence_vals pos
    = Ok (sample, weight, pos') →
  (0 <= weight)%Q.
Proof.
  intros Hcpt Hrun.
  apply (lw_while_inv nodes random evidence_vals (λ st, (0 <= st.1.2)%Q))
    in Hrun as [Hinv _]; [done| |done].
  intros st0 st1 HP. revert HP.
  apply (lw_for_nodes_inv random evidence_vals (λ st, (0 <= st.1.2)%Q)).
  intros node [[s w] p] [[s' w'] p'] Hin HP Hbody. simpl in *.
  apply lw_for_body_Ok in Hbody
    as [(_ & _ & -> & _)|(_ & [(val' & q & _ & Hq & _ & -> & _)|(q & _ & _ & _ & -> & _)])];
    [done| |done].
  apply Qmult_le_0_compat; [done|].
  unfold get_prob_false, get_prob_true, getitem in Hq.
  destruct (cpt node !! map (read s) (get_parents node)) as [c|] eqn:Hc;
    [|by destruct val'].
  destruct (Hcpt node _ c Hin Hc) as [Hc0 Hc1].
  destruct val'; simpl in Hq; injection Hq as <-; [done|].
  unfold Qminus. by rewrite <- Qle_minus_iff.
Qed.

Lemma lw_get_prob_Ok_inv nodes random fuel query_vals evidence_vals n pos r pos' :
  LikelihoodWeightingSampler.get_prob nodes random fuel query_vals evidence_vals n pos
    = Ok (r, pos') →
  ∃ samples,
    LikelihoodWeightingSampler.generate_samples nodes random fuel n evidence_vals pos
      = Ok (samples, pos') ∧
    ¬ (total_weight samples == 0)%Q ∧
    (r == weighted_matches query_vals samples / total_weight samples)%Q.
Proof.
  unfold LikelihoodWeightingSampler.get_prob.
  intros ([samples pos1] & Hgen & Hrest)%bind_Ok_inv. exists samples.
  destruct (accumulate_sums query_vals samples) as [Hcount Hcount2].
  destruct (LikelihoodWeightingSampler.accumulate query_vals samples) as [count count2].
  simpl in Hcount, Hcount2.
  apply bind_Ok_inv in Hrest as (r' & Hdiv & Hret). injection Hret as -> ->.
  unfold truediv in Hdiv. destruct (Qeq_bool count2 0) eqn:Hz; [done|].
  injection Hdiv as <-.
  assert (Hnz : ¬ (total_weight samples == 0)%Q).
  { rewrite <- Hcount2. intros Hc%Qeq_bool_iff. congruence. }
  split; [done|]. split; [done|]. by rewrite Hcount, Hcount2.
Qed.

(** Whenever [LikelihoodWeightingSampler.get_prob] returns a number, it lies
    between 0 and 1, provided the CPT entries do. *)
Theorem lw_get_prob_bounds nodes random fuel query_vals evidence_vals n pos r pos' :
  (∀ node pv p, node ∈ nodes → cpt node !! pv = Some p → (0 <= p)%Q ∧ (p <= 1)%Q) →
  LikelihoodWeightingSampler.get_prob nodes random fuel query_vals evidence_vals n pos
    = Ok (r, pos') →
  (0 <= r)%Q ∧ (r <= 1)%Q.
Proof.
  intros Hcpt (samples & Hgen & Hnz & Hr)%lw_get_prob_Ok_inv.
  assert (Hw : ∀ sw, sw ∈ samples → (0 <= sw.2)%Q).
  { intros sw Hin.
    apply (lw_generate_samples_each _ _ _ _ _ _ _ _ (λ sw, (0 <= sw.2)%Q)
             (λ pos0 sample weight pos1,
                lw_generate_sample_weight_nonneg _ _ _ _ pos0 sample weight pos1 Hcpt)
             Hgen sw Hin). }
  destruct (weighted_matches_bounds query_vals samples Hw) as [Hm0 Hm1].
  pose proof (total_weight_nonneg samples Hw) as Ht0.
  assert (Hpos : (0 < total_weight samples)%Q).
  { apply Qle_lteq in Ht0 as [Hlt|Heq]; [done|]. by destruct Hnz. }
  rewrite Hr. split.
  - apply Qle_shift_div_l; [done|]. by rewrite Qmult_0_l.
  - apply Qle_shift_div_r; [done|]. by rewrite Qmult_1_l.
Qed.

Lemma lw_get_prob_bounds_witness :
  (∀ node pv p, node ∈ FEVER_NODES → cpt node !! pv = Some p → (0 <= p)%Q ∧ (p <= 1)%Q) ∧
  LikelihoodWeightingSampler.get_prob FEVER_NODES draws_239 4 {["T" := true]}
    {["A" := true]} 2 0 = Ok (((0 + 1 * (7#8)) / (0 + 1 * (7#8) + 1 * (7#8)))%Q, 6) ∧
  (0 <= (0 + 1 * (7#8)) / (0 + 1 * (7#8) + 1 * (7#8)))%Q ∧
  ((0 + 1 * (7#8)) / (0 + 1 * (7#8) + 1 * (7#8)) <= 1)%Q.
Proof.
  assert (Hcpt : ∀ node pv p, node ∈ FEVER_NODES → cpt node !! pv = Some p →
                              (0 <= p)%Q ∧ (p <= 1)%Q).
  { intros node pv p Hin Hp.
    repeat (apply elem_of_cons in Hin as [->|Hin]); [..|inversion Hin];
      simpl in Hp;
      repeat match goal with
             | H : <[_ := _]> _ !! _ = Some _ |- _ =>
                 apply lookup_insert_Some in H as [[_ <-]|[_ H]]
             | H : {[_ := _]} !! _ = Some _ |- _ =>
                 apply lookup_singleton_Some in H as [_ <-]
             end; by vm_compute. }
  split; [exact Hcpt|]. split; [vm_compute; reflexivity|].
  apply (lw_get_prob_bounds FEVER_NODES draws_239 4 {["T" := true]} {["A" := true]}
           2 0 _ 6 Hcpt).
  vm_compute; reflexivity.
Defined.

(** ** Likelihood weighting without evidence *)

Lemma lw_generate_samples_no_evidence nodes random fuel n pos :
  LikelihoodWeightingSampler.generate_samples nodes random fuel n ∅ pos =
    let* (samples, pos') := SimpleSampler.generate_samples nodes random fuel n pos in
    Ok (map (λ s, (s, 1%Q)) samples, pos').
Proof.
  revert pos. induction n as [|n IH]; intros pos; [done|].
  cbn [LikelihoodWeightingSampler.generate_samples SimpleSampler.generate_samples].
  rewrite simple_generate_sample_lw.
  destruct (SimpleSampler.generate_sample nodes random fuel pos) as [[s pos1]| |];
    cbn [bind with_weight fst snd]; [|done..].
  rewrite IH.
  by destruct (SimpleSampler.generate_samples nodes random fuel n pos1) as [[l pos2]| |].
Qed.

(** With empty evidence likelihood weighting draws the forward samples, each
    with weight exactly 1, and its estimate is that of [SimpleSampler.get_prob]:
    the same number after the same draws, or the same exception. *)
Theorem lw_without_evidence nodes random fuel query_vals n pos :
  LikelihoodWeightingSampler.generate_samples nodes random fuel n ∅ pos =
    (let* (samples, pos') := SimpleSampler.generate_samples nodes random fuel n pos in
     Ok (map (λ s, (s, 1%Q)) samples, pos')) ∧
  same_estimate (SimpleSampler.get_prob nodes random fuel query_vals n pos)
                (LikelihoodWeightingSampler.get_prob nodes random fuel query_vals ∅ n pos).
Proof.
  split; [apply lw_generate_samples_no_evidence|].
  unfold LikelihoodWeightingSampler.get_prob. rewrite lw_generate_samples_no_evidence.
  destruct (SimpleSampler.generate_samples nodes random fuel n pos)
    as [[samples pos']| |] eqn:Hgen.
  - rewrite (simple_get_prob_eq _ _ _ _ _ _ _ _ Hgen). cbn [bind].
    pose proof (simple_generate_samples_length _ _ _ _ _ _ _ Hgen) as Hlen.
    destruct (sums_of_unit_weights query_vals samples) as [Htotal Hmatch].
    destruct (accumulate_sums query_vals (map (λ s, (s, 1%Q)) samples))
      as [Hcount Hcount2].
    destruct (LikelihoodWeightingSampler.accumulate query_vals
                (map (λ s, (s, 1%Q)) samples)) as [count count2].
    simpl in Hcount, Hcount2. rewrite Htotal, Hlen in Hcount2. rewrite Hmatch in Hcount.
    destruct (decide (n = 0)) as [->|Hn].
    + by rewrite truediv_zero.
    + rewrite truediv_nonzero.
      * simpl. split; [|done]. by rewrite Hcount, Hcount2.
      * rewrite Hcount2. unfold Qeq. simpl. lia.
  - unfold SimpleSampler.get_prob. by rewrite Hgen.
  - unfold SimpleSampler.get_prob. by rewrite Hgen.
Qed.

(** ** Samples hold the variables of the network *)

Lemma lw_generate_samples_dom nodes random fuel n evidence_vals pos samples pos' :
  LikelihoodWeightingSampler.generate_samples nodes random fuel n evidence_vals pos
    = Ok (samples, pos') →
  ∀ sw, sw ∈ samples → dom sw.1 = list_to_set (names nodes).
Proof.
  apply (lw_generate_samples_each _ _ _ _ _ _ _ _
           (λ sw, dom sw.1 = list_to_set (names nodes))).
  intros pos0 sample weight pos1. apply lw_generate_sample_dom.
Qed.

(** Every list of samples has [n] entries, and every sample in it is complete
    and holds nothing else: its keys are exactly the names of the nodes.  This
    holds of the forward samples, of the samples rejection sampling keeps
    (which may be fewer) and of the weighted samples. *)
Theorem samples_hold_network_variables nodes random fuel n evidence_vals pos :
  (∀ samples pos',
      SimpleSampler.generate_samples nodes random fuel n pos = Ok (samples, pos') →
      length samples = n ∧
      ∀ sample var, sample ∈ samples → (is_Some (sample !! var) ↔ var ∈ names nodes)) ∧
  (∀ keeps pos',
      RejectionSampler.generate_samples nodes random fuel n evidence_vals pos
        = Ok (keeps, pos') →
      ∀ sample var, sample ∈ keeps → (is_Some (sample !! var) ↔ var ∈ names nodes)) ∧
  (∀ samples pos',
      LikelihoodWeightingSampler.generate_samples nodes random fuel n evidence_vals pos
        = Ok (samples, pos') →
      length samples = n ∧
      ∀ sample weight var, (sample, weight) ∈ samples →
                           (is_Some (sample !! var) ↔ var ∈ names nodes)).
Proof.
  split; [|split].
  - intros samples pos' Hgen. split; [by eapply simple_generate_samples_length|].
    intros sample var Hin.
    rewrite <- elem_of_dom, (simple_generate_samples_dom _ _ _ _ _ _ _ Hgen sample Hin).
    apply elem_of_list_to_set.
  - rewrite rejection_generate_samples_eq.
    intros keeps pos' ([unfiltered pos1] & Hgen & Hret)%bind_Ok_inv.
    injection Hret as <- <-. intros sample var [_ Hin]%list_elem_of_filter.
    rewrite <- elem_of_dom, (simple_generate_samples_dom _ _ _ _ _ _ _ Hgen sample Hin).
    apply elem_of_list_to_set.
  - intros samples pos' Hgen. split; [by eapply lw_generate_samples_length|].
    intros sample weight var Hin.
    pose proof (lw_generate_samples_dom _ _ _ _ _ _ _ _ Hgen (sample, weight) Hin) as Hdom.
    simpl in Hdom. rewrite <- elem_of_dom, Hdom. apply elem_of_list_to_set.
Qed.

Lemma samples_hold_network_variables_witness :
  SimpleSampler.generate_samples FEVER_NODES draws_239 4 3 0
    = Ok ([fever_sample true true false true; fever_sample true true true true;
           fever_sample true true true true], 12) ∧
  length [fever_sample true true false true; fever_sample true true true true;
          fever_sample true true true true] = 3 ∧
  ∀ sample var,
    sample ∈ [fever_sample true true false true; fever_sample true true true true;
              fever_sample true true true true] →
    (is_Some (sample !! var) ↔ var ∈ names FEVER_NODES).
Proof.
  split; [vm_compute; reflexivity|].
  apply (proj1 (samples_hold_network_variables FEVER_NODES draws_239 4 3 ∅ 0) _ 12).
  vm_compute; reflexivity.
Defined.

(** ** Queries without entries, queries on unknown variables *)

Lemma simple_get_prob_Ok_inv nodes random fuel query_vals n pos r pos' :
  SimpleSampler.get_prob nodes random fuel query_vals n pos = Ok (r, pos') →
  ∃ samples,
    SimpleSampler.generate_samples nodes random fuel n pos = Ok (samples, pos') ∧
    n ≠ 0 ∧
    r = (inject_Z (Z.of_nat (length (filter (agrees query_vals) samples)))
         / inject_Z (Z.of_nat n))%Q.
Proof.
  intros Hprob.
  destruct (SimpleSampler.generate_samples nodes random fuel n pos)
    as [[samples pos1]| |] eqn:Hgen.
  - rewrite (simple_get_prob_eq _ _ _ _ _ _ _ _ Hgen) in Hprob.
    destruct (decide (n = 0)); [done|]. injection Hprob as <- <-. by exists samples.
  - unfold SimpleSampler.get_prob in Hprob. by rewrite Hgen in Hprob.
  - unfold SimpleSampler.get_prob in Hprob. by rewrite Hgen in Hprob.
Qed.

Lemma rejection_get_prob_Ok_inv nodes random fuel query_vals evidence_vals n pos r pos' :
  RejectionSampler.get_prob nodes random fuel query_vals evidence_vals n pos
    = Ok (r, pos') →
  ∃ unfiltered,
    SimpleSampler.generate_samples nodes random fuel n pos = Ok (unfiltered, pos') ∧
    length (filter (agrees evidence_vals) unfiltered) ≠ 0 ∧
    r = (inject_Z (Z.of_nat (length (filter (agrees query_vals)
                                       (filter (agrees evidence_vals) unfiltered))))
         / inject_Z (Z.of_nat (length (filter (agrees evidence_vals) unfiltered))))%Q.
Proof.
  intros Hprob.
  destruct (SimpleSampler.generate_samples nodes random fuel n pos)
    as [[unfiltered pos1]| |] eqn:Hgen.
  - rewrite (rejection_get_prob_eq _ _ _ _ _ _ _ _ _ Hgen) in Hprob. cbv zeta in Hprob.
    destruct (decide (length (filter (agrees evidence_vals) unfiltered) = 0)); [done|].
    injection Hprob as <- <-. by exists unfiltered.
  - unfold RejectionSampler.get_prob, RejectionSampler.generate_samples in Hprob.
    by rewrite Hgen in Hprob.
  - unfold RejectionSampler.get_prob, RejectionSampler.generate_samples in Hprob.
    by rewrite Hgen in Hprob.
Qed.

Lemma count_ratio_one (k : nat) :
  k ≠ 0 → (inject_Z (Z.of_nat k) / inject_Z (Z.of_nat k) == 1)%Q.
Proof.
  intros Hk. unfold Qdiv. apply Qmult_inv_r. unfold Qeq. simpl. lia.
Qed.

(** The empty query is matched by every sample: whenever one of the three
    [get_prob] methods returns a number for it, the number is 1. *)
Theorem empty_query_estimate nodes random fuel evidence_vals n pos r pos' :
  (SimpleSampler.get_prob nodes random fuel ∅ n pos = Ok (r, pos') → (r == 1)%Q) ∧
  (RejectionSampler.get_prob nodes random fuel ∅ evidence_vals n pos = Ok (r, pos') →
   (r == 1)%Q) ∧
  (LikelihoodWeightingSampler.get_prob nodes random fuel ∅ evidence_vals n pos
     = Ok (r, pos') → (r == 1)%Q).
Proof.
  split; [|split].
  - intros (samples & Hgen & Hn & ->)%simple_get_prob_Ok_inv.
    rewrite filter_agrees_empty, (simple_generate_samples_length _ _ _ _ _ _ _ Hgen).
    by apply count_ratio_one.
  - intros (unfiltered & Hgen & Hlen & ->)%rejection_get_prob_Ok_inv.
    rewrite filter_agrees_empty. by apply count_ratio_one.
  - intros (samples & Hgen & Hnz & ->)%lw_get_prob_Ok_inv.
    rewrite weighted_matches_empty_query. unfold Qdiv. by apply Qmult_inv_r.
Qed.

Lemma empty_query_estimate_witness :
  RejectionSampler.get_prob FEVER_NODES draws_239 4 ∅ {["A" := true]} 3 0
    = Ok ((inject_Z 2 / inject_Z 2)%Q, 12) ∧
  (inject_Z 2 / inject_Z 2 == 1)%Q.
Proof.
  split; [vm_compute; reflexivity|].
  apply (proj1 (proj2 (empty_query_estimate FEVER_NODES draws_239 4 {["A" := true]}
                         3 0 (inject_Z 2 / inject_Z 2)%Q 12))).
  vm_compute; reflexivity.
Defined.

(** A query on a variable that no node carries raises no [KeyError] (the
    test [k in dictionary] guards the subscription): no sample matches it, and
    whenever one of the three [get_prob] methods returns a number, the number
    is 0. *)
Theorem unknown_query_variable_estimate nodes random fuel
    (query_vals evidence_vals : gmap string bool) n pos var val r pos' :
  query_vals !! var = Some val → var ∉ names nodes →
  (SimpleSampler.get_prob nodes random fuel query_vals n pos = Ok (r, pos') →
   (r == 0)%Q) ∧
  (RejectionSampler.get_prob nodes random fuel query_vals evidence_vals n pos
     = Ok (r, pos') → (r == 0)%Q) ∧
  (LikelihoodWeightingSampler.get_prob nodes random fuel query_vals evidence_vals n pos
     = Ok (r, pos') → (r == 0)%Q).
Proof.
  intros Hq Hvar.
  assert (Hkeys : var ∉ (list_to_set (names nodes) : gset string))
    by (by rewrite elem_of_list_to_set).
  split; [|split].
  - intros (samples & Hgen & Hn & ->)%simple_get_prob_Ok_inv.
    rewrite (filter_agrees_unknown _ _ _ _ _ Hq Hkeys); [done|].
    by eapply simple_generate_samples_dom.
  - intros (unfiltered & Hgen & Hlen & ->)%rejection_get_prob_Ok_inv.
    rewrite (filter_agrees_unknown query_vals _ _ _ _ Hq Hkeys); [done|].
    intros sample [_ Hin]%list_elem_of_filter.
    by eapply simple_generate_samples_dom.
  - intros (samples & Hgen & Hnz & ->)%lw_get_prob_Ok_inv.
    rewrite weighted_matches_none; [done|].
    intros sw Hin Hagrees. apply Hkeys.
    rewrite <- (lw_generate_samples_dom _ _ _ _ _ _ _ _ Hgen sw Hin).
    apply elem_of_dom. exists val. by apply Hagrees.
Qed.

Lemma unknown_query_variable_estimate_witness :
  ({["X" := true]} : gmap string bool) !! "X" = Some true ∧ ("X" ∉ names FEVER_NODES) ∧
  LikelihoodWeightingSampler.get_prob FEVER_NODES draws_239 4 {["X" := true]}
    {["A" := true]} 2 0 = Ok ((0 / (0 + 1 * (7#8) + 1 * (7#8)))%Q, 6) ∧
  (0 / (0 + 1 * (7#8) + 1 * (7#8)) == 0)%Q.
Proof.
  assert (Hq : ({["X" := true]} : gmap string bool) !! "X" = Some true)
    by (vm_compute; reflexivity).
  assert (Hvar : "X" ∉ names FEVER_NODES)
    by (apply (bool_decide_unpack _); vm_compute; exact I).
  split; [exact Hq|]. split; [exact Hvar|]. split; [vm_compute; reflexivity|].
  apply (proj2 (proj2 (unknown_query_variable_estimate FEVER_NODES draws_239 4
                         {["X" := true]} {["A" := true]} 2 0 "X" true
                         (0 / (0 + 1 * (7#8) + 1 * (7#8)))%Q 6 Hq Hvar))).
  vm_compute; reflexivity.
Defined.

(** ** Evidence on every variable, evidence on unknown variables *)

Section LW_evidence.
Variable nodes : list BooleanVariableNode.
Variable evidence_vals : gmap string bool.

(** A node that is an evidence variable is resolved without a draw. *)
Lemma lw_for_body_evidence_random random random' node st :
  is_Some (evidence_vals !! get_var node) →
  LikelihoodWeightingSampler.for_body random evidence_vals node st
    = LikelihoodWeightingSampler.for_body random' evidence_vals node st.
Proof.
  intros [val Hev]. destruct st as [[s w] pos]. rewrite !lw_for_body_eq.
  cbv zeta. rewrite Hev. done.
Qed.

Lemma lw_for_nodes_evidence_random random random' l st :
  (∀ node, node ∈ l → is_Some (evidence_vals !! get_var node)) →
  LikelihoodWeightingSampler.for_nodes random evidence_vals l st
    = LikelihoodWeightingSampler.for_nodes random' evidence_vals l st.
Proof.
  revert st. induction l as [|node l IH]; intros st Hev; [done|].
  cbn [LikelihoodWeightingSampler.for_nodes].
  rewrite (lw_for_body_evidence_random random random') by (apply Hev; left).
  destruct (LikelihoodWeightingSampler.for_body random' evidence_vals node st);
    cbn [bind]; [|done..].
  apply IH. intros node' Hin. apply Hev. by right.
Qed.

Lemma lw_while_evidence_random random random' fuel st :
  (∀ node, node ∈ nodes → is_Some (evidence_vals !! get_var node)) →
  LikelihoodWeightingSampler.while_loop nodes random evidence_vals fuel st
    = LikelihoodWeightingSampler.while_loop nodes random' evidence_vals fuel st.
Proof.
  intros Hev. revert st. induction fuel as [|fuel IH]; intros st; rewrite !lw_while_eq;
    destruct (size st.1.1 <? length nodes); try done.
  rewrite (lw_for_nodes_evidence_random random random') by done.
  destruct (LikelihoodWeightingSampler.for_nodes random' evidence_vals nodes st);
    cbn [bind]; [|done..].
  apply IH.
Qed.

Lemma lw_generate_sample_evidence_pos random fuel pos sample weight pos' :
  (∀ node, node ∈ nodes → is_Some (evidence_vals !! get_var node)) →
  LikelihoodWeightingSampler.generate_sample nodes random fuel evidence_vals pos
    = Ok (sample, weight, pos') →
  pos' = pos.
Proof.
  intros Hev Hrun.
  apply (lw_while_inv nodes random evidence_vals (λ st, st.2 = pos))
    in Hrun as [Hinv _]; [done| |done].
  intros st0 st1 HP. revert HP.
  apply (lw_for_nodes_inv random evidence_vals (λ st, st.2 = pos)).
  intros node [[s w] p] [[s' w'] p'] Hin HP Hbody. simpl in *.
  destruct (Hev node Hin) as [val Hval].
  apply lw_for_body_Ok in Hbody
    as [(_ & _ & _ & ->)|(_ & [(val' & q & _ & _ & _ & _ & ->)|(q & Hnone & _)])];
    [done..|congruence].
Qed.
End LW_evidence.

(** When the evidence names every variable of the network, likelihood
    weighting never calls [random.random()]: the sample is the same for every
    generator, no draw is consumed, and every variable of the network holds
    its evidence value. *)
Theorem lw_full_evidence_draws_nothing nodes random fuel evidence_vals pos
    sample weight pos' :
  (∀ node, node ∈ nodes → is_Some (evidence_vals !! get_var node)) →
  LikelihoodWeightingSampler.generate_sample nodes random fuel evidence_vals pos
    = Ok (sample, weight, pos') →
  pos' = pos ∧
  (∀ var, var ∈ names nodes → sample !! var = evidence_vals !! var) ∧
  ∀ random',
    LikelihoodWeightingSampler.generate_sample nodes random' fuel evidence_vals pos
      = Ok (sample, weight, pos').
Proof.
  intros Hev Hrun. split; [by eapply lw_generate_sample_evidence_pos|]. split.
  - intros var (node & -> & Hin)%list_elem_of_fmap.
    destruct (Hev node Hin) as [val Hval]. rewrite Hval.
    eapply lw_generate_sample_evidence; [done..|].
    erewrite lw_generate_sample_dom by done.
    apply elem_of_list_to_set. by apply list_elem_of_fmap_2.
  - intros random'. rewrite <- Hrun. symmetry.
    by apply lw_while_evidence_random.
Qed.

Lemma lw_full_evidence_draws_nothing_witness :
  (∀ node, node ∈ CHILD_FIRST →
           is_Some ((<["E" := true]> {["F" := false]} : gmap string bool) !! get_var node)) ∧
  LikelihoodWeightingSampler.generate_sample CHILD_FIRST draws_239 2
      (<["E" := true]> {["F" := false]}) 5
    = Ok (<["E" := true]> {["F" := false]},
          (1 * (1#4) * (1 - (1#2)) * (1#4))%Q, 5) ∧
  5 = 5 ∧
  (∀ var, var ∈ names CHILD_FIRST →
          (<["E" := true]> {["F" := false]} : gmap string bool) !! var
          = (<["E" := true]> {["F" := false]} : gmap string bool) !! var) ∧
  ∀ random',
    LikelihoodWeightingSampler.generate_sample CHILD_FIRST random' 2
        (<["E" := true]> {["F" := false]}) 5
      = Ok (<["E" := true]> {["F" := false]},
            (1 * (1#4) * (1 - (1#2)) * (1#4))%Q, 5).
Proof.
  assert (Hev : ∀ node, node ∈ CHILD_FIRST →
            is_Some ((<["E" := true]> {["F" := false]} : gmap string bool)
                       !! get_var node)).
  { intros node Hin.
    repeat (apply elem_of_cons in Hin as [->|Hin]); [..|inversion Hin];
      vm_compute; eauto. }
  split; [exact Hev|]. split; [vm_compute; reflexivity|].
  apply (lw_full_evidence_draws_nothing CHILD_FIRST draws_239 2
           (<["E" := true]> {["F" := false]}) 5 _ _ 5 Hev).
  vm_compute; reflexivity.
Defined.

Section LW_unknown_evidence.
Variable nodes : list BooleanVariableNode.
Variable random : nat → Q.
Variable evidence_vals : gmap string bool.
Variable var : string.
Variable val : bool.

Lemma lw_for_body_insert_evidence node st :
  get_var node ≠ var →
  LikelihoodWeightingSampler.for_body random (<[var := val]> evidence_vals) node st
    = LikelihoodWeightingSampler.for_body random evidence_vals node st.
Proof.
  intros Hne. destruct st as [[s w] pos]. rewrite !lw_for_body_eq.
  cbv zeta. by rewrite lookup_insert_ne.
Qed.

Lemma lw_for_nodes_insert_evidence l st :
  var ∉ names l →
  LikelihoodWeightingSampler.for_nodes random (<[var := val]> evidence_vals) l st
    = LikelihoodWeightingSampler.for_nodes random evidence_vals l st.
Proof.
  revert st. induction l as [|node l IH]; intros st Hvar; [done|].
  cbn [LikelihoodWeightingSampler.for_nodes].
  unfold names in Hvar. rewrite fmap_cons, not_elem_of_cons in Hvar.
  destruct Hvar as [Hne Hvar].
  rewrite lw_for_body_insert_evidence by done.
  destruct (LikelihoodWeightingSampler.for_body random evidence_vals node st);
    cbn [bind]; [|done..].
  by apply IH.
Qed.

Lemma lw_while_insert_evidence fuel st :
  var ∉ names nodes →
  LikelihoodWeightingSampler.while_loop nodes random (<[var := val]> evidence_vals) fuel st
    = LikelihoodWeightingSampler.while_loop nodes random evidence_vals fuel st.
Proof.
  intros Hvar. revert st. induction fuel as [|fuel IH]; intros st; rewrite !lw_while_eq;
    destruct (size st.1.1 <? length nodes); try done.
  rewrite lw_for_nodes_insert_evidence by done.
  destruct (LikelihoodWeightingSampler.for_nodes random evidence_vals nodes st);
    cbn [bind]; [|done..].
  apply IH.
Qed.

Lemma lw_generate_samples_insert_evidence fuel n pos :
  var ∉ names nodes →
  LikelihoodWeightingSampler.generate_samples nodes random fuel n
      (<[var := val]> evidence_vals) pos
    = LikelihoodWeightingSampler.generate_samples nodes random fuel n evidence_vals pos.
Proof.
  intros Hvar. revert pos. induction n as [|n IH]; intros pos; [done|].
  cbn [LikelihoodWeightingSampler.generate_samples].
  unfold LikelihoodWeightingSampler.generate_sample.
  rewrite lw_while_insert_evidence by done.
  destruct (LikelihoodWeightingSampler.while_loop nodes random evidence_vals fuel
              (∅, 1%Q, pos)) as [[[s w] pos1]| |]; cbn [bind]; [|done..].
  by rewrite IH.
Qed.
End LW_unknown_evidence.

(** Likelihood weighting ignores evidence on a variable that no node carries:
    the samples, their weights and the estimate are those without that
    evidence entry.  (Rejection sampling rejects every sample instead.) *)
Theorem lw_ignores_unknown_evidence nodes random fuel query_vals evidence_vals n pos
    var val :
  var ∉ names nodes →
  LikelihoodWeightingSampler.generate_samples nodes random fuel n
      (<[var := val]> evidence_vals) pos
    = LikelihoodWeightingSampler.generate_samples nodes random fuel n evidence_vals pos ∧
  LikelihoodWeightingSampler.get_prob nodes random fuel query_vals
      (<[var := val]> evidence_vals) n pos
    = LikelihoodWeightingSampler.get_prob nodes random fuel query_vals evidence_vals n pos.
Proof.
  intros Hvar. split; [by apply lw_generate_samples_insert_evidence|].
  unfold LikelihoodWeightingSampler.get_prob.
  by rewrite lw_generate_samples_insert_evidence.
Qed.

Lemma lw_ignores_unknown_evidence_witness :
  ("X" ∉ names FEVER_NODES) ∧
  LikelihoodWeightingSampler.generate_samples FEVER_NODES draws_239 4 2
      (<["X" := true]> {["A" := true]}) 0
    = LikelihoodWeightingSampler.generate_samples FEVER_NODES draws_239 4 2
        {["A" := true]} 0 ∧
  LikelihoodWeightingSampler.get_prob FEVER_NODES draws_239 4 {["T" := true]}
      (<["X" := true]> {["A" := true]}) 2 0
    = LikelihoodWeightingSampler.get_prob FEVER_NODES draws_239 4 {["T" := true]}
        {["A" := true]} 2 0.
Proof.
  assert (Hvar : "X" ∉ names FEVER_NODES)
    by (apply (bool_decide_unpack _); vm_compute; exact I).
  split; [exact Hvar|].
  exact (lw_ignores_unknown_evidence FEVER_NODES draws_239 4 {["T" := true]}
           {["A" := true]} 2 0 "X" true Hvar).
Defined.

(** ** The number of draws a sample takes *)

Section Draws.
Variable nodes : list BooleanVariableNode.
Variable random : nat → Q.
Variable evidence_vals : gmap string bool.

Lemma lw_for_nodes_pos l st st' :
  LikelihoodWeightingSampler.for_nodes random evidence_vals l st = Ok st' →
  st.2 ≤ st'.2 ≤ st.2 + length l.
Proof.
  revert st. induction l as [|node l IH]; intros st Hrun; simpl in Hrun.
  - injection Hrun as <-. simpl. lia.
  - apply bind_Ok_inv in Hrun as (st1 & Hbody & Hrest). apply IH in Hrest.
    destruct st as [[s w] pos], st1 as [[s1 w1] pos1].
    apply lw_for_body_Ok in Hbody
      as [(_ & _ & _ & ->)|(_ & [(val' & q & _ & _ & _ & _ & ->)|(q & _ & _ & _ & _ & ->)])];
      simpl in *; lia.
Qed.

(** At most [length nodes] draws in each of at most [length nodes] passes. *)
Lemma lw_while_pos fuel st st' :
  well_formed nodes →
  dom st.1.1 ⊆ list_to_set (names nodes) →
  LikelihoodWeightingSampler.while_loop nodes random evidence_vals fuel st = Ok st' →
  st.2 ≤ st'.2 ≤ st.2 + (length nodes - size st.1.1) * length nodes.
Proof.
  intros Hwf. revert st. induction fuel as [|fuel IH]; intros st Hdom;
    rewrite lw_while_eq; destruct (Nat.ltb_spec (size st.1.1) (length nodes)) as [Hlt|Hge];
    intros Hrun; try discriminate.
  - injection Hrun as <-. lia.
  - apply bind_Ok_inv in Hrun as (st1 & Hpass & Hrest).
    pose proof (lw_pass_progress nodes random evidence_vals Hwf _ _ Hdom Hlt Hpass) as Hsize.
    pose proof (lw_pass_names nodes random evidence_vals _ _ Hdom Hpass) as Hdom1.
    apply lw_for_nodes_pos in Hpass. apply IH in Hrest; [|done].
    assert (Hmul : (length nodes - size st1.1.1) * length nodes
                   + length nodes ≤ (length nodes - size st.1.1) * length nodes).
    { replace (length nodes - size st.1.1)
        with (S (length nodes - size st.1.1 - 1)) by lia.
      simpl. assert (length nodes - size st1.1.1 ≤ length nodes - size st.1.1 - 1) by lia.
      pose proof (Nat.mul_le_mono_r _ _ (length nodes) H). lia. }
    lia.
  - injection Hrun as <-. lia.
Qed.
End Draws.

(** Without evidence every assignment is a draw: the draws made are at least
    as many as the keys of the dictionary. *)
Lemma lw_while_draws_keys nodes random fuel pos0 st st' :
  size st.1.1 + pos0 ≤ st.2 →
  LikelihoodWeightingSampler.while_loop nodes random ∅ fuel st = Ok st' →
  size st'.1.1 + pos0 ≤ st'.2.
Proof.
  intros Hst Hrun.
  apply (lw_while_inv nodes random ∅ (λ st, size st.1.1 + pos0 ≤ st.2))
    in Hrun as [Hinv _]; [done| |done].
  intros st0 st1 HP. revert HP.
  apply (lw_for_nodes_inv random ∅ (λ st, size st.1.1 + pos0 ≤ st.2)).
  intros node [[s w] p] [[s' w'] p'] Hin HP Hbody. simpl in *.
  apply lw_for_body_Ok in Hbody
    as [(_ & -> & _ & ->)|(_ & [(val' & q & Hev & _)|(q & _ & _ & -> & _ & ->)])];
    [done|by rewrite lookup_empty in Hev|].
  rewrite map_size_insert. destruct (s !! get_var node); unfold id; lia.
Qed.

(** A forward sample takes at least one draw for every node; in a well-formed
    network it takes at most [length nodes] draws in each of at most
    [length nodes] passes.  The same upper bound holds for likelihood
    weighting, which never steps back in the sequence of draws. *)
Theorem sample_draws_bounds nodes random fuel evidence_vals pos :
  (∀ sample pos',
      SimpleSampler.generate_sample nodes random fuel pos = Ok (sample, pos') →
      pos + length nodes ≤ pos' ∧
      (well_formed nodes → pos' ≤ pos + length nodes * length nodes)) ∧
  (∀ sample weight pos',
      LikelihoodWeightingSampler.generate_sample nodes random fuel evidence_vals pos
        = Ok (sample, weight, pos') →
      well_formed nodes →
      pos ≤ pos' ≤ pos + length nodes * length nodes).
Proof.
  split.
  - intros sample pos' Hrun.
    assert (Hlw : LikelihoodWeightingSampler.generate_sample nodes random fuel ∅ pos
                  = Ok (sample, 1%Q, pos')).
    { by rewrite simple_generate_sample_lw, Hrun. }
    split.
    + pose proof (lw_while_draws_keys nodes random fuel pos (∅, 1%Q, pos)
                    (sample, 1%Q, pos')) as Hkeys.
      simpl in Hkeys. rewrite map_size_empty in Hkeys. specialize (Hkeys ltac:(lia) Hlw).
      apply (lw_while_inv nodes random ∅ (λ _, True)) in Hlw as [_ Hsize]; [|done..].
      simpl in Hsize. lia.
    + intros Hwf. apply (lw_while_pos nodes random ∅ fuel _ _ Hwf) in Hlw.
      * simpl in Hlw. rewrite map_size_empty in Hlw. lia.
      * simpl. rewrite dom_empty_L. apply empty_subseteq.
  - intros sample weight pos' Hrun Hwf.
    apply (lw_while_pos nodes random evidence_vals fuel _ _ Hwf) in Hrun.
    + simpl in Hrun. rewrite map_size_empty in Hrun. lia.
    + simpl. rewrite dom_empty_L. apply empty_subseteq.
Qed.

Lemma sample_draws_bounds_witness :
  SimpleSampler.generate_sample CHILD_FIRST draws_239 2 0
    = Ok (<["F" := true]> {["E" := false]}, 3) ∧
  0 + length CHILD_FIRST ≤ 3 ∧
  (well_formed CHILD_FIRST → 3 ≤ 0 + length CHILD_FIRST * length CHILD_FIRST).
Proof.
  split; [vm_compute; reflexivity|].
  apply (proj1 (sample_draws_bounds CHILD_FIRST draws_239 2 ∅ 0)
           (<["F" := true]> {["E" := false]}) 3).
  vm_compute; reflexivity.
Defined.

(** ** Lists that are not a network

    On a list that repeats a name, names a parent that no node carries, or
    has a dependency cycle, the resolution loop never returns a sample. *)

Lemma names_inj nodes node node' :
  NoDup (names nodes) → node ∈ nodes → node' ∈ nodes →
  get_var node = get_var node' → node = node'.
Proof.
  induction nodes as [|node0 nodes IH]; intros Hnodup Hin Hin' Heq; [inversion Hin|].
  unfold names in Hnodup. rewrite fmap_cons in Hnodup.
  apply NoDup_cons in Hnodup as [Hfresh Hnodup].
  apply elem_of_cons in Hin as [->|Hin]; apply elem_of_cons in Hin' as [->|Hin'].
  - done.
  - destruct Hfresh. rewrite Heq. by apply list_elem_of_fmap_2.
  - destruct Hfresh. rewrite <- Heq. by apply list_elem_of_fmap_2.
  - by apply IH.
Qed.

Section Malformed.
Variable nodes : list BooleanVariableNode.
Variable random : nat → Q.
Variable evidence_vals : gmap string bool.
Hypothesis Hnodup : NoDup (names nodes).

(** An invariant of the steps on nodes of the list is an invariant of the
    loop, and contradicts a returned sample when it excludes a name of the
    list from the keys. *)
Lemma lw_excluded_name_no_sample (P : gset string → Prop) fuel pos st x :
  P ∅ →
  (∀ node (s : gmap string bool) b,
      node ∈ nodes → dom s ⊆ list_to_set (names nodes) → P (dom s) →
      (∀ p, p ∈ get_parents node → p ∈ dom s) →
      P (dom (<[get_var node := b]> s))) →
  (∀ D, P D → x ∉ D) → x ∈ names nodes →
  LikelihoodWeightingSampler.generate_sample nodes random fuel evidence_vals pos ≠ Ok st.
Proof.
  intros Hempty Hstep Hexcl Hx Hrun. destruct st as [[sample weight] pos'].
  pose proof (lw_generate_sample_dom _ _ _ _ _ _ _ _ Hrun) as Hdom.
  apply (lw_while_inv nodes random evidence_vals
           (λ st, dom st.1.1 ⊆ list_to_set (names nodes) ∧ P (dom st.1.1)))
    in Hrun as [[_ HP] _].
  - simpl in HP. apply (Hexcl _ HP). rewrite Hdom. by apply elem_of_list_to_set.
  - intros st0 st1 HP0. revert HP0.
    apply (lw_for_nodes_inv random evidence_vals
             (λ st, dom st.1.1 ⊆ list_to_set (names nodes) ∧ P (dom st.1.1))).
    intros node [[s w] p0] [[s' w'] p'] Hin [Hsub HP0] Hbody. simpl in *.
    assert (Hins : ∀ b, all (map (contains s) (get_parents node)) = true →
              dom (<[get_var node := b]> s) ⊆ list_to_set (names nodes) ∧
              P (dom (<[get_var node := b]> s))).
    { intros b Hall. split.
      - rewrite dom_insert_L. apply union_subseteq. split; [|done].
        apply singleton_subseteq_l, elem_of_list_to_set. by apply list_elem_of_fmap_2.
      - apply Hstep; [done..|]. intros p Hp. apply contains_true.
        by apply (proj1 (all_map_true _ _) Hall). }
    apply lw_for_body_Ok in Hbody
      as [(_ & -> & _)|(Hall & [(val' & q & _ & _ & -> & _)|(q & _ & _ & -> & _)])];
      [done|by apply Hins..].
  - simpl. rewrite dom_empty_L. split; [apply empty_subseteq|done].
Qed.

Lemma lw_unknown_parent_no_sample fuel pos st node p :
  node ∈ nodes → p ∈ get_parents node → p ∉ names nodes →
  LikelihoodWeightingSampler.generate_sample nodes random fuel evidence_vals pos ≠ Ok st.
Proof.
  intros Hin Hp Hunknown.
  apply (lw_excluded_name_no_sample (λ D, get_var node ∉ D) _ _ _ (get_var node)).
  - apply not_elem_of_empty.
  - intros node' s b Hin' Hsub Hnot Hready. rewrite dom_insert_L.
    intros [Heq%elem_of_singleton|Hold]%elem_of_union; [|done].
    apply (names_inj nodes node node' Hnodup Hin Hin') in Heq as <-.
    apply Hunknown. apply (elem_of_list_to_set (C := gset string)). by apply Hsub, Hready.
  - done.
  - by apply list_elem_of_fmap_2.
Qed.

Lemma lw_cycle_no_sample fuel pos st x :
  tc (depends nodes) x x →
  LikelihoodWeightingSampler.generate_sample nodes random fuel evidence_vals pos ≠ Ok st.
Proof.
  intros Hcycle.
  apply (lw_excluded_name_no_sample
           (λ D, ∀ y, tc (depends nodes) y y → y ∉ D) _ _ _ x).
  - intros y _. apply not_elem_of_empty.
  - intros node s b Hin Hsub Hnot Hready y Hy. rewrite dom_insert_L.
    intros [->%elem_of_singleton|Hold]%elem_of_union; [|by apply (Hnot y)].
    assert (Hfirst : ∃ z, depends nodes (get_var node) z ∧ tc (depends nodes) z z).
    { inversion Hy as [? ? Hdep|? z ? Hdep Hrest]; subst.
      - by exists (get_var node).
      - exists z. split; [done|]. by eapply tc_r. }
    destruct Hfirst as (z & (node' & Hin' & Heq & Hz) & Hzz).
    apply (names_inj nodes node' node Hnodup Hin' Hin) in Heq as ->.
    by apply (Hnot z Hzz), Hready.
  - intros D HD. by apply HD.
  - inversion Hcycle as [? ? (node & Hin & <- & _)|? z ? (node & Hin & <- & _) _];
      by apply list_elem_of_fmap_2.
Qed.
End Malformed.

(** With a CPT entry for every combination the loop cannot raise. *)
Lemma lw_while_no_raise nodes random evidence_vals fuel st e :
  (∀ node (σ : string → bool),
      node ∈ nodes → is_Some (cpt node !! map σ (get_parents node))) →
  LikelihoodWeightingSampler.while_loop nodes random evidence_vals fuel st ≠ Raise e.
Proof.
  intros Hcpt. revert st. induction fuel as [|fuel IH]; intros st; rewrite lw_while_eq;
    destruct (size st.1.1 <? length nodes); try done.
  destruct (lw_for_nodes_total random evidence_vals nodes st Hcpt) as [st1 ->].
  simpl. apply IH.
Qed.

(** A list that repeats a name, names a parent that no node carries, or has a
    dependency cycle never yields a sample, from either sampler and for every
    sequence of draws; when no CPT entry is missing the loop does not raise
    either: it exhausts every budget of passes. *)
Theorem malformed_network_no_sample nodes random fuel evidence_vals pos :
  ¬ NoDup (names nodes)
  ∨ (∃ node p, node ∈ nodes ∧ p ∈ get_parents node ∧ p ∉ names nodes)
  ∨ (∃ x, tc (depends nodes) x x) →
  (∀ st, SimpleSampler.generate_sample nodes random fuel pos ≠ Ok st) ∧
  (∀ st, LikelihoodWeightingSampler.generate_sample nodes random fuel evidence_vals pos
         ≠ Ok st) ∧
  ((∀ node (σ : string → bool),
       node ∈ nodes → is_Some (cpt node !! map σ (get_parents node))) →
   SimpleSampler.generate_sample nodes random fuel pos = OutOfFuel ∧
   LikelihoodWeightingSampler.generate_sample nodes random fuel evidence_vals pos
     = OutOfFuel).
Proof.
  intros Hbad.
  assert (Hlw : ∀ evidence_vals st,
            LikelihoodWeightingSampler.generate_sample nodes random fuel evidence_vals pos
            ≠ Ok st).
  { intros ev st. destruct (decide (NoDup (names nodes))) as [Hnodup|Hdup];
      [|by apply lw_repeated_name_no_sample].
    destruct Hbad as [Hdup|[(node & p & Hin & Hp & Hunknown)|[x Hcycle]]]; [done|..].
    - by eapply lw_unknown_parent_no_sample.
    - by eapply lw_cycle_no_sample. }
  assert (Hsimple : ∀ st, SimpleSampler.generate_sample nodes random fuel pos ≠ Ok st).
  { intros st Hrun. apply (Hlw ∅ (with_weight 1%Q st)).
    by rewrite simple_generate_sample_lw, Hrun. }
  split; [done|]. split; [done|]. intros Hcpt. split.
  - pose proof (lw_while_no_raise nodes random ∅ fuel (∅, 1%Q, pos)) as Hno.
    fold (LikelihoodWeightingSampler.generate_sample nodes random fuel ∅ pos) in Hno.
    rewrite simple_generate_sample_lw in Hno.
    destruct (SimpleSampler.generate_sample nodes random fuel pos) as [st|e|] eqn:Hrun;
      [by destruct (Hsimple st)|by destruct (Hno e Hcpt)|done].
  - pose proof (lw_while_no_raise nodes random evidence_vals fuel (∅, 1%Q, pos)) as Hno.
    fold (LikelihoodWeightingSampler.generate_sample nodes random fuel evidence_vals pos)
      in Hno.
    destruct (LikelihoodWeightingSampler.generate_sample nodes random fuel evidence_vals pos)
      as [st|e|] eqn:Hrun;
      [by destruct (Hlw evidence_vals st)|by destruct (Hno e Hcpt)|done].
Qed.

Lemma malformed_network_no_sample_witness :
  (¬ NoDup (names CYCLIC)
   ∨ (∃ node p, node ∈ CYCLIC ∧ p ∈ get_parents node ∧ p ∉ names CYCLIC)
   ∨ (∃ x, tc (depends CYCLIC) x x)) ∧
  (∀ st, SimpleSampler.generate_sample CYCLIC draws_239 7 0 ≠ Ok st) ∧
  (∀ st, LikelihoodWeightingSampler.generate_sample CYCLIC draws_239 7 {["A" := true]} 0
         ≠ Ok st) ∧
  ((∀ node (σ : string → bool),
       node ∈ CYCLIC → is_Some (cpt node !! map σ (get_parents node))) →
   SimpleSampler.generate_sample CYCLIC draws_239 7 0 = OutOfFuel ∧
   LikelihoodWeightingSampler.generate_sample CYCLIC draws_239 7 {["A" := true]} 0
     = OutOfFuel).
Proof.
  assert (Hbad : ¬ NoDup (names CYCLIC)
                 ∨ (∃ node p, node ∈ CYCLIC ∧ p ∈ get_parents node ∧ p ∉ names CYCLIC)
                 ∨ (∃ x, tc (depends CYCLIC) x x)).
  { right. right. exists "A". apply (tc_l _ _ "B").
    - eexists. split; [left|]. split; [reflexivity|]. left.
    - apply tc_once. eexists. split; [right; left|]. split; [reflexivity|]. left. }
  split; [exact Hbad|].
  exact (malformed_network_no_sample CYCLIC draws_239 7 {["A" := true]} 0 Hbad).
Defined.

(** ** bayes_sample_size_plot *)

Lemma lw_generate_samples_terminates nodes random fuel n evidence_vals pos :
  well_formed nodes → length nodes ≤ fuel →
  ∃ samples pos',
    LikelihoodWeightingSampler.generate_samples nodes random fuel n evidence_vals pos
      = Ok (samples, pos').
Proof.
  intros Hwf Hfuel. revert pos. induction n as [|n IH]; intros pos; simpl; [eauto|].
  destruct (lw_generate_sample_terminates nodes random evidence_vals pos Hwf)
    as [[[sample weight] pos1] Hs].
  apply (lw_while_fuel_mono _ _ _ _ fuel) in Hs; [|done..].
  unfold LikelihoodWeightingSampler.generate_sample at 1. rewrite Hs. simpl.
  destruct (IH pos1) as (rest & pos2 & ->). simpl. eauto.
Qed.

Lemma range_20_10000_100 :
  length (range 20 10000 100) = 100 ∧
  (∃ l, range 20 10000 100 = 20%Z :: l) ∧
  ∀ i, i ∈ range 20 10000 100 → Z.to_nat i ≠ 0.
Proof.
  split; [by vm_compute|]. split; [eexists; vm_compute; reflexivity|].
  intros i (k & -> & _)%list_elem_of_fmap. lia.
Qed.

Section Plot_facts.
Variable nodes1 nodes2 : list BooleanVariableNode.
Variable random : nat → Q.
Variable fuel : nat.
Variable query : gmap string bool.
Hypothesis Hwf1 : well_formed nodes1.
Hypothesis Hwf2 : well_formed nodes2.
Hypothesis Hfuel1 : length nodes1 ≤ fuel.
Hypothesis Hfuel2 : length nodes2 ≤ fuel.

(** Without evidence a batch of [i > 0] samples gives one point to each
    series. *)
Lemma plot_body_no_evidence i a1 a2 pos :
  Z.to_nat i ≠ 0 →
  ∃ y1 y2 pos',
    plot_body nodes1 nodes2 random fuel query ∅ i (a1, a2, pos)
      = Ok (a1 ++ [y1], a2 ++ [y2], pos') ∧
    ((0 <= y1)%Q ∧ (y1 <= 1)%Q) ∧ ((0 <= y2)%Q ∧ (y2 <= 1)%Q).
Proof.
  intros Hi. unfold plot_body.
  rewrite rejection_generate_samples_no_evidence.
  destruct (simple_generate_samples_terminates nodes1 random fuel (Z.to_nat i) pos
              Hwf1 Hfuel1) as (samples1 & pos1 & Hgen1).
  rewrite Hgen1. cbn [bind]. rewrite lw_generate_samples_no_evidence.
  destruct (simple_generate_samples_terminates nodes2 random fuel (Z.to_nat i) pos1
              Hwf2 Hfuel2) as (samples2 & pos2 & Hgen2).
  rewrite Hgen2. cbn [bind].
  apply simple_generate_samples_length in Hgen1, Hgen2.
  rewrite count_matching_filter, truediv_counts, decide_False by lia. cbn [bind].
  destruct (sums_of_unit_weights query samples2) as [Htotal Hmatch].
  destruct (accumulate_sums query (map (λ s, (s, 1%Q)) samples2)) as [Hcount Hcount2].
  destruct (LikelihoodWeightingSampler.accumulate query (map (λ s, (s, 1%Q)) samples2))
    as [count count2].
  simpl in Hcount, Hcount2. rewrite Htotal in Hcount2. rewrite Hmatch in Hcount.
  rewrite truediv_nonzero.
  - cbn [bind]. eexists _, _, _. split; [done|]. split.
    + apply ratio_bounds; [apply length_filter|lia].
    + rewrite Hcount, Hcount2. apply ratio_bounds; [apply length_filter|lia].
  - rewrite Hcount2. unfold Qeq. simpl. lia.
Qed.

Lemma plot_loop_no_evidence l : ∀ a1 a2 pos,
  (∀ i, i ∈ l → Z.to_nat i ≠ 0) →
  ∃ ys1 ys2 pos',
    plot_loop nodes1 nodes2 random fuel query ∅ l (a1, a2, pos)
      = Ok (a1 ++ ys1, a2 ++ ys2, pos') ∧
    length ys1 = length l ∧ length ys2 = length l ∧
    Forall (λ y, (0 <= y)%Q ∧ (y <= 1)%Q) ys1 ∧
    Forall (λ y, (0 <= y)%Q ∧ (y <= 1)%Q) ys2.
Proof.
  induction l as [|i l IH]; intros a1 a2 pos Hl.
  - exists [], [], pos. rewrite !app_nil_r. by repeat split.
  - cbn [plot_loop].
    destruct (plot_body_no_evidence i a1 a2 pos) as (y1 & y2 & pos1 & -> & Hy1 & Hy2);
      [apply Hl; left|].
    cbn [bind].
    destruct (IH (a1 ++ [y1]) (a2 ++ [y2]) pos1)
      as (ys1 & ys2 & pos' & -> & Hlen1 & Hlen2 & Hb1 & Hb2);
      [intros j Hj; apply Hl; by right|].
    exists (y1 :: ys1), (y2 :: ys2), pos'. rewrite <- !app_assoc. simpl.
    repeat split; try (by constructor); by f_equal.
Qed.

(** With evidence that no forward sample can agree with, the first batch
    leaves nothing to divide by. *)
Lemma plot_body_unknown_evidence (evidence : gmap string bool) var val i st :
  evidence !! var = Some val → var ∉ names nodes1 →
  plot_body nodes1 nodes2 random fuel query evidence i st = Raise ZeroDivisionError.
Proof.
  intros Hev Hvar. destruct st as [[a1 a2] pos]. unfold plot_body.
  rewrite rejection_generate_samples_eq.
  destruct (simple_generate_samples_terminates nodes1 random fuel (Z.to_nat i) pos
              Hwf1 Hfuel1) as (samples1 & pos1 & Hgen1).
  rewrite Hgen1. cbn [bind].
  rewrite (unknown_evidence_rejects_all _ _ _ _ _ _ _ _ _ _ Hev Hvar Hgen1).
  destruct (lw_generate_samples_terminates nodes2 random fuel (Z.to_nat i) evidence pos1
              Hwf2 Hfuel2) as (samples2 & pos2 & Hgen2).
  rewrite Hgen2. done.
Qed.
End Plot_facts.

(** Without evidence, on well-formed networks, [bayes_sample_size_plot]
    completes: it plots 100 points per series, at the sample counts 20, 120,
    ..., 9920, every estimate between 0 and 1.  Whatever [label1], [label2],
    [title] and [fname] are passed, the labels are "sampler1" and "sampler2",
    the title is "Sampler1 vs. Sampler2" and the file is "383fig.pdf". *)
Theorem plot_without_evidence nodes1 nodes2 random fuel query
    label1 label2 title fname pos :
  well_formed nodes1 → well_formed nodes2 →
  length nodes1 ≤ fuel → length nodes2 ≤ fuel →
  ∃ a1 a2 pos',
    bayes_sample_size_plot nodes1 nodes2 random fuel query ∅
        label1 label2 title fname pos
      = Ok (two_line_plot (range 20 10000 100) a1 "sampler1"
              (range 20 10000 100) a2 "sampler2"
              "Sampler1 vs. Sampler2" "383fig.pdf", pos') ∧
    length (range 20 10000 100) = 100 ∧ length a1 = 100 ∧ length a2 = 100 ∧
    Forall (λ y, (0 <= y)%Q ∧ (y <= 1)%Q) a1 ∧
    Forall (λ y, (0 <= y)%Q ∧ (y <= 1)%Q) a2.
Proof.
  intros Hwf1 Hwf2 Hfuel1 Hfuel2.
  destruct range_20_10000_100 as (Hlen & _ & Hpos).
  destruct (plot_loop_no_evidence nodes1 nodes2 random fuel query Hwf1 Hwf2 Hfuel1 Hfuel2
              (range 20 10000 100) [] [] pos Hpos)
    as (a1 & a2 & pos' & Hloop & Hlen1 & Hlen2 & Hb1 & Hb2).
  exists a1, a2, pos'. unfold bayes_sample_size_plot. rewrite Hloop. cbn [bind app].
  rewrite Hlen in Hlen1, Hlen2. done.
Qed.

Lemma plot_without_evidence_witness :
  well_formed FEVER_NODES ∧ length FEVER_NODES ≤ 4 ∧
  ∃ a1 a2 pos',
    bayes_sample_size_plot FEVER_NODES FEVER_NODES draws_239 4 {["E" := true]} ∅
        "rejection" "likelihood weighting" "P(e | a, t) vs n" "bayes_fever.pdf" 0
      = Ok (two_line_plot (range 20 10000 100) a1 "sampler1"
              (range 20 10000 100) a2 "sampler2"
              "Sampler1 vs. Sampler2" "383fig.pdf", pos') ∧
    length (range 20 10000 100) = 100 ∧ length a1 = 100 ∧ length a2 = 100 ∧
    Forall (λ y, (0 <= y)%Q ∧ (y <= 1)%Q) a1 ∧
    Forall (λ y, (0 <= y)%Q ∧ (y <= 1)%Q) a2.
Proof.
  assert (Hlen : length FEVER_NODES ≤ 4) by (simpl; lia).
  split; [exact FEVER_NODES_well_formed|]. split; [exact Hlen|].
  exact (plot_without_evidence FEVER_NODES FEVER_NODES draws_239 4 {["E" := true]}
           "rejection" "likelihood weighting" "P(e | a, t) vs n" "bayes_fever.pdf" 0
           FEVER_NODES_well_formed FEVER_NODES_well_formed Hlen Hlen).
Defined.

(** With evidence on a variable that the network of the rejection sampler does
    not carry, [bayes_sample_size_plot] raises [ZeroDivisionError] in its first
    batch, after both samplers have drawn their 20 samples, and plots
    nothing. *)
Theorem plot_unknown_evidence_raises nodes1 nodes2 random fuel query
    (evidence : gmap string bool) label1 label2 title fname pos var val :
  well_formed nodes1 → well_formed nodes2 →
  length nodes1 ≤ fuel → length nodes2 ≤ fuel →
  evidence !! var = Some val → var ∉ names nodes1 →
  bayes_sample_size_plot nodes1 nodes2 random fuel query evidence
      label1 label2 title fname pos
    = Raise ZeroDivisionError.
Proof.
  intros Hwf1 Hwf2 Hfuel1 Hfuel2 Hev Hvar.
  destruct range_20_10000_100 as (_ & [l Hrange] & _).
  unfold bayes_sample_size_plot. rewrite Hrange. cbn [plot_loop].
  by rewrite (plot_body_unknown_evidence nodes1 nodes2 random fuel query
                Hwf1 Hwf2 Hfuel1 Hfuel2 evidence var val).
Qed.

Lemma plot_unknown_evidence_raises_witness :
  well_formed FEVER_NODES ∧ length FEVER_NODES ≤ 4 ∧
  ({["X" := true]} : gmap string bool) !! "X" = Some true ∧ ("X" ∉ names FEVER_NODES) ∧
  bayes_sample_size_plot FEVER_NODES FEVER_NODES draws_239 4 {["E" := true]}
      {["X" := true]} "rejection" "likelihood weighting" "P(e | a, t) vs n"
      "bayes_fever.pdf" 0
    = Raise ZeroDivisionError.
Proof.
  assert (Hlen : length FEVER_NODES ≤ 4) by (simpl; lia).
  assert (Hev : ({["X" := true]} : gmap string bool) !! "X" = Some true)
    by (vm_compute; reflexivity).
  assert (Hvar : "X" ∉ names FEVER_NODES)
    by (apply (bool_decide_unpack _); vm_compute; exact I).
  split; [exact FEVER_NODES_well_formed|]. split; [exact Hlen|].
  split; [exact Hev|]. split; [exact Hvar|].
  exact (plot_unknown_evidence_raises FEVER_NODES FEVER_NODES draws_239 4 {["E" := true]}
           {["X" := true]} "rejection" "likelihood weighting" "P(e | a, t) vs n"
           "bayes_fever.pdf" 0 "X" true
           FEVER_NODES_well_formed FEVER_NODES_well_formed Hlen Hlen Hev Hvar).
Defined.

(** ** What rejection sampling keeps *)



(** ** The rejection estimate as a ratio of forward estimates *)






(** ** Weights *)

Lemma lw_generate_sample_weight_le_1 nodes random fuel evidence_vals pos
    sample weight pos' :
  (∀ node pv p, node ∈ nodes → cpt node !! pv = Some p → (0 <= p)%Q ∧ (p <= 1)%Q) →
  LikelihoodWeightingSampler.generate_sample nodes random fuel evidence_vals pos
    = Ok (sample, weight, pos') →
  (0 <= weight)%Q ∧ (weight <= 1)%Q.
Proof.
  intros Hcpt Hrun.
  apply (lw_while_inv nodes random evidence_vals
           (λ st, (0 <= st.1.2)%Q ∧ (st.1.2 <= 1)%Q))
    in Hrun as [Hinv _]; [done| |done].
  intros st0 st1 HP. revert HP.
  apply (lw_for_nodes_inv random evidence_vals (λ st, (0 <= st.1.2)%Q ∧ (st.1.2 <= 1)%Q)).
  intros node [[s w] p] [[s' w'] p'] Hin [HP0 HP1] Hbody. simpl in *.
  apply lw_for_body_Ok in Hbody
    as [(_ & _ & -> & _)|(_ & [(val' & q & _ & Hq & _ & -> & _)|(q & _ & _ & _ & -> & _)])];
    [done| |done].
  assert (Hq01 : (0 <= q)%Q ∧ (q <= 1)%Q).
  { unfold get_prob_false, get_prob_true, getitem in Hq.
    destruct (cpt node !! map (read s) (get_parents node)) as [c|] eqn:Hc;
      [|by destruct val'].
    destruct (Hcpt node _ c Hin Hc) as [Hc0 Hc1].
    destruct val'; simpl in Hq; injection Hq as <-; [done|]. split.
    - unfold Qminus. by rewrite <- Qle_minus_iff.
    - apply Qle_minus_iff.
      assert (Hring : (1 + - (1 - c) == c)%Q) by ring. by rewrite Hring. }
  destruct Hq01 as [Hq0 Hq1]. split; [by apply Qmult_le_0_compat|].
  rewrite <- (Qmult_1_l 1). apply Qle_trans with (1 * q)%Q.
  - by apply Qmult_le_compat_r.
  - rewrite !Qmult_1_l. done.
Qed.

(** When every CPT entry lies in [0,1], the weight of every weighted sample
    lies in [0,1], and the weights of [n] samples add up to at most [n]. *)
Theorem lw_weights_bounds nodes random fuel n evidence_vals pos samples pos' :
  (∀ node pv p, node ∈ nodes → cpt node !! pv = Some p → (0 <= p)%Q ∧ (p <= 1)%Q) →
  LikelihoodWeightingSampler.generate_samples nodes random fuel n evidence_vals pos
    = Ok (samples, pos') →
  (∀ sample weight, (sample, weight) ∈ samples → (0 <= weight)%Q ∧ (weight <= 1)%Q) ∧
  (0 <= total_weight samples)%Q ∧ (total_weight samples <= inject_Z (Z.of_nat n))%Q.
Proof.
  intros Hcpt Hgen.
  assert (Hw : ∀ sw, sw ∈ samples → (0 <= sw.2)%Q ∧ (sw.2 <= 1)%Q).
  { intros sw Hin.
    apply (lw_generate_samples_each _ _ _ _ _ _ _ _ (λ sw, (0 <= sw.2)%Q ∧ (sw.2 <= 1)%Q)
             (λ pos0 sample weight pos1,
                lw_generate_sample_weight_le_1 _ _ _ _ pos0 sample weight pos1 Hcpt)
             Hgen sw Hin). }
  split; [intros sample weight Hin; apply (Hw (sample, weight) Hin)|].
  split; [apply total_weight_nonneg; intros sw Hin; by apply Hw|].
  rewrite <- (lw_generate_samples_length _ _ _ _ _ _ _ _ Hgen).
  clear Hgen. induction samples as [|[s w] l IH]; [done|].
  cbn [total_weight foldr snd length]. fold (total_weight l).
  rewrite Nat2Z.inj_succ, <- Z.add_1_l, inject_Z_plus.
  apply Qplus_le_compat.
  - apply (Hw (s, w)). left.
  - apply IH. intros sw Hin. apply Hw. by right.
Qed.

Lemma lw_weights_bounds_witness :
  (∀ node pv p, node ∈ FEVER_NODES → cpt node !! pv = Some p → (0 <= p)%Q ∧ (p <= 1)%Q) ∧
  LikelihoodWeightingSampler.generate_samples FEVER_NODES draws_239 4 2 {["A" := true]} 0
    = Ok ([(fever_sample true true true false, (1 * (7#8))%Q);
           (fever_sample true true true true, (1 * (7#8))%Q)], 6) ∧
  (∀ sample weight,
      (sample, weight) ∈ [(fever_sample true true true false, (1 * (7#8))%Q);
                          (fever_sample true true true true, (1 * (7#8))%Q)] →
      (0 <= weight)%Q ∧ (weight <= 1)%Q) ∧
  (0 <= total_weight [(fever_sample true true true false, (1 * (7#8))%Q);
                      (fever_sample true true true true, (1 * (7#8))%Q)])%Q ∧
  (total_weight [(fever_sample true true true false, (1 * (7#8))%Q);
                 (fever_sample true true true true, (1 * (7#8))%Q)]
     <= inject_Z (Z.of_nat 2))%Q.
Proof.
  assert (Hcpt : ∀ node pv p, node ∈ FEVER_NODES → cpt node !! pv = Some p →
                              (0 <= p)%Q ∧ (p <= 1)%Q).
  { intros node pv p Hin Hp.
    repeat (apply elem_of_cons in Hin as [->|Hin]); [..|inversion Hin];
      simpl in Hp;
      repeat match goal with
             | H : <[_ := _]> _ !! _ = Some _ |- _ =>
                 apply lookup_insert_Some in H as [[_ <-]|[_ H]]
             | H : {[_ := _]} !! _ = Some _ |- _ =>
                 apply lookup_singleton_Some in H as [_ <-]
             end; by vm_compute. }
  split; [exact Hcpt|]. split; [vm_compute; reflexivity|].
  apply (lw_weights_bounds FEVER_NODES draws_239 4 2 {["A" := true]} 0 _ 6 Hcpt).
  vm_compute; reflexivity.
Defined.

(** ** Networks listed in dependency order *)

(** On an ordered list one pass of the [while] loop does all the work: the
    run that is allowed a single pass returns what any run returns. *)
Lemma lw_ordered_one_pass nodes random evidence_vals fuel pos sample weight pos' :
  NoDup (names nodes) → dependency_ordered nodes →
  LikelihoodWeightingSampler.generate_sample nodes random fuel evidence_vals pos
    = Ok (sample, weight, pos') →
  LikelihoodWeightingSampler.generate_sample nodes random 1 evidence_vals pos
    = Ok (sample, weight, pos').
Proof.
  intros Hnodup Hord Hrun.
  pose proof (lw_ordered_single_pass nodes random Hnodup Hord _ _ _ _ Hrun) as Hpass.
  pose proof (lw_generate_sample_dom _ _ _ _ _ _ _ _ Hrun) as Hdom.
  unfold LikelihoodWeightingSampler.generate_sample. rewrite lw_while_eq. simpl.
  rewrite map_size_empty.
  destruct (Nat.ltb_spec 0 (length nodes)) as [Hlt|Hge].
  - rewrite Hpass. cbn [bind fst].
    rewrite <- (size_dom (D := gset string)), Hdom, size_list_to_set by done.
    unfold names. by rewrite length_map, Nat.ltb_irrefl.
  - destruct nodes; [exact Hpass|simpl in Hge; lia].
Qed.

(** On a node list without repeated names that lists every parent before its
    children, [SimpleSampler.generate_sample] needs one pass of the [while]
    loop, consumes exactly one draw per node, and assigns every variable by
    one of these draws, compared with the CPT probability at the parent values
    of the returned sample. *)
Theorem simple_ordered_network_sample nodes random fuel pos sample pos' :
  NoDup (names nodes) → dependency_ordered nodes →
  SimpleSampler.generate_sample nodes random fuel pos = Ok (sample, pos') →
  SimpleSampler.generate_sample nodes random 1 pos = Ok (sample, pos') ∧
  forward_sample_spec nodes random pos sample pos'.
Proof.
  intros Hnodup Hord Hrun. split.
  - assert (Hlw : LikelihoodWeightingSampler.generate_sample nodes random fuel ∅ pos
                  = Ok (sample, 1%Q, pos')).
    { by rewrite simple_generate_sample_lw, Hrun. }
    apply lw_ordered_one_pass in Hlw; [|done..].
    rewrite simple_generate_sample_lw in Hlw.
    apply bind_Ok_inv in Hlw as ([s p] & Hs & Hret).
    unfold with_weight in Hret. simpl in Hret. by injection Hret as -> ->.
  - assert (Hlw : LikelihoodWeightingSampler.generate_sample nodes random fuel ∅ pos
                  = Ok (sample, 1%Q, pos')).
    { by rewrite simple_generate_sample_lw, Hrun. }
    apply lw_ordered_single_pass in Hlw; [|done..].
    destruct (lw_ordered_pass random ∅ nodes [] ∅ 1%Q pos sample 1%Q pos')
      as (Hdom & _ & Hpos & Hnodes & _); [done| |by rewrite dom_empty_L|done|].
    { intros l2a node l2b. apply Hord. }
    rewrite draws_needed_empty in Hpos. simpl in Hdom. split; [|split; [done|]].
    + intros node Hin. apply elem_of_dom. rewrite Hdom.
      apply elem_of_list_to_set. by apply list_elem_of_fmap_2.
    + intros node Hin. specialize (Hnodes node Hin). by rewrite lookup_empty in Hnodes.
Qed.

Lemma simple_ordered_network_sample_witness :
  NoDup (names FEVER_NODES) ∧ dependency_ordered FEVER_NODES ∧
  SimpleSampler.generate_sample FEVER_NODES draws_239 4 0
    = Ok (fever_sample true true false true, 4) ∧
  SimpleSampler.generate_sample FEVER_NODES draws_239 1 0
    = Ok (fever_sample true true false true, 4) ∧
  forward_sample_spec FEVER_NODES draws_239 0 (fever_sample true true false true) 4.
Proof.
  split; [exact (wf_unique _ FEVER_NODES_well_formed)|].
  split; [exact FEVER_NODES_ordered|].
  split; [vm_compute; reflexivity|].
  apply (simple_ordered_network_sample FEVER_NODES draws_239 4 0 _ 4
           (wf_unique _ FEVER_NODES_well_formed) FEVER_NODES_ordered).
  vm_compute; reflexivity.
Defined.

(** On such a list [LikelihoodWeightingSampler.generate_sample] needs one pass
    as well, consumes one draw per node that is not an evidence variable,
    gives every evidence variable its evidence value and every other variable
    the outcome of one draw, and returns as weight the product of one
    likelihood factor per evidence variable of the network, taken at the
    parent values of the returned sample. *)
Theorem lw_ordered_network_sample nodes random fuel evidence_vals pos sample weight pos' :
  NoDup (names nodes) → dependency_ordered nodes →
  LikelihoodWeightingSampler.generate_sample nodes random fuel evidence_vals pos
    = Ok (sample, weight, pos') →
  LikelihoodWeightingSampler.generate_sample nodes random 1 evidence_vals pos
    = Ok (sample, weight, pos') ∧
  pos' = pos + draws_needed evidence_vals nodes ∧
  (∀ node, node ∈ nodes →
     match evidence_vals !! get_var node with
     | Some val => sample !! get_var node = Some val
     | None => consistent_draw random pos pos' sample node
     end) ∧
  ∃ L, evidence_likelihood evidence_vals sample nodes = Ok L ∧ (weight == L)%Q.
Proof.
  intros Hnodup Hord Hrun. split; [by eapply lw_ordered_one_pass|].
  apply lw_ordered_single_pass in Hrun; [|done..].
  destruct (lw_ordered_pass random evidence_vals nodes [] ∅ 1%Q pos sample weight pos')
    as (_ & _ & Hpos & Hnodes & L & HL & Hw); [done| |by rewrite dom_empty_L|done|].
  { intros l2a node l2b. apply Hord. }
  split; [done|]. split; [done|]. exists L. split; [done|]. rewrite Hw. ring.
Qed.

Lemma lw_ordered_network_sample_witness :
  NoDup (names FEVER_NODES) ∧ dependency_ordered FEVER_NODES ∧
  LikelihoodWeightingSampler.generate_sample FEVER_NODES draws_239 4 {["A" := true]} 0
    = Ok (fever_sample true true true false, (1 * (7#8))%Q, 3) ∧
  LikelihoodWeightingSampler.generate_sample FEVER_NODES draws_239 1 {["A" := true]} 0
    = Ok (fever_sample true true true false, (1 * (7#8))%Q, 3) ∧
  3 = 0 + draws_needed {["A" := true]} FEVER_NODES ∧
  (∀ node, node ∈ FEVER_NODES →
     match ({["A" := true]} : gmap string bool) !! get_var node with
     | Some val => fever_sample true true true false !! get_var node = Some val
     | None => consistent_draw draws_239 0 3 (fever_sample true true true false) node
     end) ∧
  ∃ L, evidence_likelihood {["A" := true]} (fever_sample true true true false) FEVER_NODES
         = Ok L ∧ ((1 * (7#8)) == L)%Q.
Proof.
  split; [exact (wf_unique _ FEVER_NODES_well_formed)|].
  split; [exact FEVER_NODES_ordered|].
  split; [vm_compute; reflexivity|].
  apply (lw_ordered_network_sample FEVER_NODES draws_239 4 {["A" := true]} 0 _ _ 3
           (wf_unique _ FEVER_NODES_well_formed) FEVER_NODES_ordered).
  vm_compute; reflexivity.
Defined.
